(** * live-tweet-sentiment: [twitter_stream.py]

    A shallow embedding of the [TwitterStream] class (credential
    validation, client initialisation, [get_recent_tweets] and
    [get_stream_sample]) and the properties of it that the specification
    states.

    The Python code is dynamically typed and talks to two outside parties:
    the interpreter (attribute lookup, truthiness, formatting) and the
    tweepy client (the search call).  The embedding keeps both visible:

    - response objects are attribute tables over a small universe of
      Python values, so that a lookup of an attribute that is not there
      raises [AttributeError] exactly where the source would;
    - the process environment, the clock, the outcome of every call of
      the client and the log are fields of an explicit [world] that every
      operation threads through;
    - exceptions are the values of the left summand of a result type, and
      [try ... except Exception] is a combinator on computations. *)

From Stdlib Require Import Ascii String.
From stdpp Require Import base option list gmap strings pretty countable.

Local Open Scope string_scope.

(** ** Python values *)

(** The components of a [datetime.datetime] that the format
    ["%Y-%m-%d %H:%M:%S"] reads.  Microseconds and time zone are not kept:
    a value of this type stands for every [datetime] with these six
    components, and two Python values that print alike under the format
    are the same value here. *)
Record datetime : Type := mk_datetime {
  year : Z; month : Z; day : Z;
  hour : Z; minute : Z; second : Z
}.

(** The ranges Python's [datetime] constructor enforces ([MINYEAR] is 1,
    [MAXYEAR] is 9999). *)
Definition valid_datetime (d : datetime) : Prop :=
  (1 ≤ year d ≤ 9999 ∧ 1 ≤ month d ≤ 12 ∧ 1 ≤ day d ≤ 31 ∧
   0 ≤ hour d ≤ 23 ∧ 0 ≤ minute d ≤ 59 ∧ 0 ≤ second d ≤ 59)%Z.

(** A year of four digits, as every year from 1000 on is. *)
Definition four_digit_year (d : datetime) : Prop := (1000 ≤ year d)%Z.

(** Hashable, immutable values: [None], [int], [str], [datetime]. *)
Inductive scalar : Type :=
  | SNone
  | SInt (z : Z)
  | SStr (s : string)
  | STime (d : datetime).

(** What an attribute of a response object can hold: a scalar, or a
    [dict] with string keys (the [public_metrics] mappings). *)
Inductive field : Type :=
  | FScalar (v : scalar)
  | FDict (d : gmap string scalar).

(** An instance of a tweepy model class ([Tweet], [User]): the name of its
    class and its attribute table.  Instances are truthy. *)
Record obj : Type := mk_obj {
  cls : string;
  attrs : gmap string field
}.

Global Instance datetime_eq_dec : EqDecision datetime.
Proof. solve_decision. Defined.

Global Instance scalar_eq_dec : EqDecision scalar.
Proof. solve_decision. Defined.

Definition datetime_to_tuple (d : datetime) : Z * Z * Z * Z * Z * Z :=
  (year d, month d, day d, hour d, minute d, second d).

Definition tuple_to_datetime (t : Z * Z * Z * Z * Z * Z) : datetime :=
  let '(y, mo, d, h, mi, s) := t in mk_datetime y mo d h mi s.

Global Instance datetime_countable : Countable datetime.
Proof.
  apply (inj_countable' datetime_to_tuple tuple_to_datetime).
  by intros [].
Defined.

Definition scalar_to_sum (v : scalar) : unit + Z + string + datetime :=
  match v with
  | SNone => inl (inl (inl tt))
  | SInt z => inl (inl (inr z))
  | SStr s => inl (inr s)
  | STime d => inr d
  end.

Definition sum_to_scalar (x : unit + Z + string + datetime) : scalar :=
  match x with
  | inl (inl (inl _)) => SNone
  | inl (inl (inr z)) => SInt z
  | inl (inr s) => SStr s
  | inr d => STime d
  end.

Global Instance scalar_countable : Countable scalar.
Proof.
  apply (inj_countable' scalar_to_sum sum_to_scalar).
  by intros [].
Defined.

(** ** Exceptions

    [AttributeError], [TypeError] and [ValueError] are what the interpreter
    and the class itself raise.  [ClientError] stands for whatever
    [Exception] the tweepy client raises (HTTP errors, rate limiting,
    network failures), with the name of its class and its message.
    [KeyboardInterrupt] and [SystemExit] derive from [BaseException]
    only: a call into the client can end with either, and
    [except Exception] does not catch them. *)
Inductive exn : Type :=
  | AttributeError (msg : string)
  | TypeError (msg : string)
  | ValueError (msg : string)
  | ClientError (class_name msg : string)
  | KeyboardInterrupt
  | SystemExit (code : string).

(** [str(e)] *)
Definition exn_str (e : exn) : string :=
  match e with
  | AttributeError m | TypeError m | ValueError m => m
  | ClientError _ m => m
  | KeyboardInterrupt => ""
  | SystemExit code => code
  end.

(** [isinstance(e, Exception)] *)
Definition is_Exception (e : exn) : bool :=
  match e with
  | AttributeError _ | TypeError _ | ValueError _ | ClientError _ _ => true
  | KeyboardInterrupt | SystemExit _ => false
  end.

Definition result (A : Type) : Type := exn + A.

(** ** Interpreter primitives *)

Definition type_name (f : field) : string :=
  match f with
  | FScalar SNone => "NoneType"
  | FScalar (SInt _) => "int"
  | FScalar (SStr _) => "str"
  | FScalar (STime _) => "datetime.datetime"
  | FDict _ => "dict"
  end.

Definition no_attribute (class_name attr : string) : exn :=
  AttributeError ("'" +:+ class_name +:+ "' object has no attribute '" +:+ attr +:+ "'").

(** [o.name] *)
Definition getattr (o : obj) (name : string) : result field :=
  match attrs o !! name with
  | Some v => inr v
  | None => inl (no_attribute (cls o) name)
  end.

(** [hasattr(o, name)] *)
Definition hasattr (o : obj) (name : string) : bool :=
  bool_decide (is_Some (attrs o !! name)).

(** [getattr(o, name, default)] *)
Definition getattr_default (o : obj) (name : string) (dflt : field) : field :=
  default dflt (attrs o !! name).

(** Truth value of an attribute value: [None], [0], [""] and [{}] are
    falsy, a [datetime] is always truthy. *)
Definition truthy (f : field) : bool :=
  match f with
  | FScalar SNone => false
  | FScalar (SInt z) => negb (z =? 0)%Z
  | FScalar (SStr s) => negb (String.eqb s "")
  | FScalar (STime _) => true
  | FDict d => negb (bool_decide (d = ∅))
  end.

(** [recv.get(key, default)]: only a [dict] has the method. *)
Definition dict_get (recv : field) (key : string) (dflt : scalar) : result scalar :=
  match recv with
  | FDict d => inr (default dflt (d !! key))
  | _ => inl (no_attribute (type_name recv) "get")
  end.

(** ** [strftime] *)

Definition digit_char (z : Z) : ascii :=
  match z with
  | 0 => "0" | 1 => "1" | 2 => "2" | 3 => "3" | 4 => "4"
  | 5 => "5" | 6 => "6" | 7 => "7" | 8 => "8" | _ => "9"
  end%Z%char.

(** A non-negative number in decimal, zero-padded on the left to at least
    [width] digits (C's [%0<width>d]). *)
Fixpoint zero_padded (width : nat) (n : Z) : string :=
  match width with
  | O => if (n =? 0)%Z then "" else pretty n
  | S w => zero_padded w (n / 10) +:+ String (digit_char (n mod 10)) ""
  end.

(** One conversion specification of the format.  [%Y] is the year in
    decimal without padding, as the C library prints it (999 for the year
    999); the other fields are padded to two digits. *)
Definition directive (c : ascii) (d : datetime) : option string :=
  match c with
  | "Y"%char => Some (zero_padded 1 (year d))
  | "m"%char => Some (zero_padded 2 (month d))
  | "d"%char => Some (zero_padded 2 (day d))
  | "H"%char => Some (zero_padded 2 (hour d))
  | "M"%char => Some (zero_padded 2 (minute d))
  | "S"%char => Some (zero_padded 2 (second d))
  | "%"%char => Some "%"
  | _ => None
  end.

(** [d.strftime(fmt)] for the directives above; any other character of the
    format is copied. *)
Fixpoint strftime (d : datetime) (fmt : string) : string :=
  match fmt with
  | "" => ""
  | String "%"%char (String c rest as tail) =>
      match directive c d with
      | Some s => s +:+ strftime d rest
      | None => String "%"%char (strftime d tail)
      end
  | String c rest => String c (strftime d rest)
  end.

Definition timestamp_format : string := "%Y-%m-%d %H:%M:%S".

(** [recv.strftime(fmt)]: only a [datetime] has the method. *)
Definition call_strftime (recv : field) (fmt : string) : result string :=
  match recv with
  | FScalar (STime d) => inr (strftime d fmt)
  | _ => inl (no_attribute (type_name recv) "strftime")
  end.

Definition is_digit (c : ascii) : bool :=
  (48 <=? nat_of_ascii c)%nat && (nat_of_ascii c <=? 57)%nat.

(** The shape [dddd-dd-dd dd:dd:dd]. *)
Definition matches_timestamp_pattern (s : string) : bool :=
  match list_ascii_of_string s with
  | [y1; y2; y3; y4; s1; m1; m2; s2; d1; d2; s3; h1; h2; s4; n1; n2; s5; c1; c2] =>
      forallb is_digit [y1; y2; y3; y4; m1; m2; d1; d2; h1; h2; n1; n2; c1; c2]
      && bool_decide ([s1; s2; s3; s4; s5] = ["-"; "-"; " "; ":"; ":"]%char)
  | _ => false
  end.

(** ** The world outside the class

    [environ] is [os.environ]; [clock] gives the successive readings of
    [datetime.now()], [ticks] counting those taken so far; [new_client]
    tells whether [tweepy.Client(...)] raises for given arguments;
    [search] is the outcome of the n-th call of
    [client.search_recent_tweets], [calls] counting the calls made so far;
    [log] is what the [logging] module has been handed, oldest first. *)

Inductive level : Type := INFO | WARNING | ERROR.

Record log_record : Type := mk_log { levelname : level; message : string }.

(** The keyword arguments of [tweepy.Client]; each defaults to [None]. *)
Record Client : Type := mk_Client {
  cl_bearer_token : option string;
  cl_consumer_key : option string;
  cl_consumer_secret : option string;
  cl_access_token : option string;
  cl_access_token_secret : option string
}.

(** The keyword arguments of [search_recent_tweets]. *)
Record search_request : Type := mk_request {
  req_query : string;
  req_max_results : Z;
  req_tweet_fields : list string;
  req_user_fields : list string;
  req_expansions : list string
}.

(** A tweepy [Response]: [data] is [None] or a list of tweets, [includes]
    maps the name of an expansion to the objects it brought along. *)
Record response : Type := mk_response {
  data : option (list obj);
  includes : gmap string (list obj)
}.

Record world : Type := mk_world {
  environ : gmap string string;
  clock : nat → datetime;
  ticks : nat;
  new_client : Client → option exn;
  search : nat → Client → search_request → result response;
  calls : nat;
  log : list log_record
}.

(** ** Computations: state of the world, and exceptions *)

Definition M (A : Type) : Type := world → result A * world.

Definition ret {A} (a : A) : M A := λ w, (inr a, w).

Definition raise {A} (e : exn) : M A := λ w, (inl e, w).

Definition bind {A B} (c : M A) (k : A → M B) : M B :=
  λ w, match c w with
       | (inr a, w') => k a w'
       | (inl e, w') => (inl e, w')
       end.

Notation "x <- c ;; k" := (bind c (λ x, k))
  (at level 20, c at level 99, k at level 200, only parsing).
Notation "c ;; k" := (bind c (λ _, k))
  (at level 100, k at level 200, right associativity, only parsing).

(** A computation that does not touch the world. *)
Definition lift {A} (r : result A) : M A := λ w, (r, w).

(** [try: body / except Exception as e: handler e]: an exception that is
    not an [Exception] passes through. *)
Definition try_except {A} (body : M A) (handler : exn → M A) : M A :=
  λ w, match body w with
       | (inr a, w') => (inr a, w')
       | (inl e, w') => if is_Exception e then handler e w' else (inl e, w')
       end.

(** Sequencing in [result] alone. *)
Definition rbind {A B} (r : result A) (k : A → result B) : result B :=
  match r with
  | inr a => k a
  | inl e => inl e
  end.

Notation "x <~ r ;; k" := (rbind r (λ x, k))
  (at level 20, r at level 99, k at level 200, only parsing).

Definition add_log (r : log_record) (w : world) : world :=
  mk_world (environ w) (clock w) (ticks w) (new_client w) (search w) (calls w)
           (log w ++ [r]).

Definition logging_info (msg : string) : M unit := λ w, (inr (), add_log (mk_log INFO msg) w).
Definition logging_warning (msg : string) : M unit := λ w, (inr (), add_log (mk_log WARNING msg) w).
Definition logging_error (msg : string) : M unit := λ w, (inr (), add_log (mk_log ERROR msg) w).

(** [os.environ.get(name)] *)
Definition environ_get (name : string) : M (option string) :=
  λ w, (inr (environ w !! name), w).

(** [datetime.now()] *)
Definition datetime_now : M datetime :=
  λ w, (inr (clock w (ticks w)),
        mk_world (environ w) (clock w) (S (ticks w)) (new_client w) (search w)
                 (calls w) (log w)).

(** [tweepy.Client(...)] *)
Definition tweepy_Client (args : Client) : M Client :=
  λ w, match new_client w args with
       | Some e => (inl e, w)
       | None => (inr args, w)
       end.

(** [client.search_recent_tweets(...)] *)
Definition search_recent_tweets (c : Client) (req : search_request) : M response :=
  λ w, (search w (calls w) c req,
        mk_world (environ w) (clock w) (ticks w) (new_client w) (search w)
                 (S (calls w)) (log w)).

(** ** The class *)

(** The five attributes [__init__] reads from the environment. *)
Record credentials : Type := mk_credentials {
  bearer_token : option string;
  api_key : option string;
  api_secret : option string;
  access_token : option string;
  access_token_secret : option string
}.

Record TwitterStream : Type := mk_TwitterStream {
  creds : credentials;
  client : Client;
  hashtag : string;
  query : string
}.

(** Truth value of what [os.environ.get] returns: [None] and [""] are
    falsy. *)
Definition is_set (v : option string) : bool :=
  match v with
  | Some s => negb (String.eqb s "")
  | None => false
  end.

Definition credentials_message : string :=
  "Missing required Twitter API credentials. Need either TWITTER_BEARER_TOKEN or OAuth credentials: ".

(** [if not v: missing.append(name)] *)
Definition append_if_missing (v : option string) (name : string) (missing : list string)
  : list string :=
  if negb (is_set v) then missing ++ [name] else missing.

Definition missing_credentials (c : credentials) : list string :=
  let missing := [] in
  let missing := append_if_missing (bearer_token c) "TWITTER_BEARER_TOKEN" missing in
  let missing := append_if_missing (api_key c) "TWITTER_API_KEY" missing in
  let missing := append_if_missing (api_secret c) "TWITTER_API_SECRET" missing in
  let missing := append_if_missing (access_token c) "TWITTER_ACCESS_TOKEN" missing in
  let missing := append_if_missing (access_token_secret c) "TWITTER_ACCESS_TOKEN_SECRET" missing in
  missing.

Definition _validate_credentials (c : credentials) : result unit :=
  if negb (is_set (bearer_token c))
     && negb (is_set (api_key c) && is_set (api_secret c)
              && is_set (access_token c) && is_set (access_token_secret c))
  then
    inl (ValueError (credentials_message +:+ String.concat ", " (missing_credentials c)))
  else inr ().

Definition _initialize_client (c : credentials) : M Client :=
  try_except
    (if is_set (bearer_token c) then
       cl <- tweepy_Client (mk_Client (bearer_token c) None None None None) ;;
       logging_info "Twitter API v2 client initialized with Bearer Token" ;;
       ret cl
     else
       cl <- tweepy_Client (mk_Client None (api_key c) (api_secret c)
                                      (access_token c) (access_token_secret c)) ;;
       logging_info "Twitter API v2 client initialized with OAuth 1.0a" ;;
       ret cl)
    (λ e,
       logging_error ("Error initializing Twitter v2 client: " +:+ exn_str e) ;;
       raise e).

Definition default_hashtag : string := "#GrowWithGroqHack".

Definition __init__ (hashtag : string) : M TwitterStream :=
  bearer_token <- environ_get "TWITTER_BEARER_TOKEN" ;;
  api_key <- environ_get "TWITTER_API_KEY" ;;
  api_secret <- environ_get "TWITTER_API_SECRET" ;;
  access_token <- environ_get "TWITTER_ACCESS_TOKEN" ;;
  access_token_secret <- environ_get "TWITTER_ACCESS_TOKEN_SECRET" ;;
  let c := mk_credentials bearer_token api_key api_secret access_token access_token_secret in
  lift (_validate_credentials c) ;;
  client <- _initialize_client c ;;
  let query := hashtag +:+ " -is:retweet" in
  logging_info ("TwitterStream initialized for hashtag: " +:+ hashtag) ;;
  ret (mk_TwitterStream c client hashtag query).

(** ** [get_recent_tweets] *)

(** The dictionary [get_recent_tweets] builds for one tweet. *)
Record NormalizedRecord : Type := mk_record {
  r_id : field;
  r_username : string;
  r_text : field;
  r_timestamp : string;
  r_user_followers : scalar;
  r_retweet_count : scalar;
  r_like_count : scalar
}.

(** A key of a [dict] must be hashable; a [dict] is not. *)
Definition hash_key (f : field) : result scalar :=
  match f with
  | FScalar v => inr v
  | FDict _ => inl (TypeError "unhashable type: 'dict'")
  end.

(** [{user.id: user for user in l}], built left to right: a later user
    with the same id replaces an earlier one. *)
Fixpoint users_by_id (l : list obj) (acc : gmap scalar obj) : result (gmap scalar obj) :=
  match l with
  | [] => inr acc
  | user :: rest =>
      id <~ getattr user "id" ;;
      key <~ hash_key id ;;
      users_by_id rest (<[key := user]> acc)
  end.

(** [{...} if 'users' in response.includes else {}] *)
Definition users_of (r : response) : result (gmap scalar obj) :=
  match includes r !! "users" with
  | Some l => users_by_id l ∅
  | None => inr ∅
  end.

Section Formatting.

(** [str(x)] for the values whose rendering depends on more than the
    model keeps (the microseconds and time zone of a [datetime], the
    [repr] of the entries of a [dict]). *)
Variable py_str : field → string.

(** A replacement field [{x}] of an f-string. *)
Definition format_value (f : field) : string :=
  match f with
  | FScalar (SStr s) => s
  | FScalar SNone => "None"
  | FScalar (SInt z) => pretty z
  | _ => py_str f
  end.

(** [user = users.get(tweet.author_id)] *)
Definition author_of (users : gmap scalar obj) (tweet : obj) : result (option obj) :=
  author_id <~ getattr tweet "author_id" ;;
  key <~ hash_key author_id ;;
  inr (users !! key).

(** [f"@{user.username}" if user else "Unknown User"] *)
Definition username_of (user : option obj) : result string :=
  match user with
  | Some u => handle <~ getattr u "username" ;;
              inr ("@" +:+ format_value handle)
  | None => inr "Unknown User"
  end.

(** [tweet.created_at.strftime(...) if tweet.created_at
     else datetime.now().strftime(...)] *)
Definition timestamp_of (tweet : obj) : M string :=
  created_at <- lift (getattr tweet "created_at") ;;
  if truthy created_at then
    created_at <- lift (getattr tweet "created_at") ;;
    lift (call_strftime created_at timestamp_format)
  else
    now <- datetime_now ;;
    ret (strftime now timestamp_format).

(** [getattr(user, 'public_metrics', {}).get('followers_count', 0)
     if user else 0] *)
Definition user_followers_of (user : option obj) : result scalar :=
  match user with
  | Some u => dict_get (getattr_default u "public_metrics" (FDict ∅))
                       "followers_count" (SInt 0)
  | None => inr (SInt 0)
  end.

(** [tweet.public_metrics.get(key, 0)
     if hasattr(tweet, 'public_metrics') else 0] *)
Definition metric_of (tweet : obj) (key : string) : result scalar :=
  if hasattr tweet "public_metrics" then
    public_metrics <~ getattr tweet "public_metrics" ;;
    dict_get public_metrics key (SInt 0)
  else inr (SInt 0).

(** The body of the [for tweet in response.data] loop. *)
Definition process_tweet (users : gmap scalar obj) (tweet : obj) : M NormalizedRecord :=
  user <- lift (author_of users tweet) ;;
  username <- lift (username_of user) ;;
  timestamp <- timestamp_of tweet ;;
  id <- lift (getattr tweet "id") ;;
  text <- lift (getattr tweet "text") ;;
  user_followers <- lift (user_followers_of user) ;;
  retweet_count <- lift (metric_of tweet "retweet_count") ;;
  like_count <- lift (metric_of tweet "like_count") ;;
  ret (mk_record id username text timestamp user_followers retweet_count like_count).

(** The loop itself: [processed_tweets.append(processed_tweet)] for each
    tweet in turn. *)
Fixpoint process_tweets (users : gmap scalar obj) (tweets : list obj)
    (processed_tweets : list NormalizedRecord) : M (list NormalizedRecord) :=
  match tweets with
  | [] => ret processed_tweets
  | tweet :: rest =>
      processed_tweet <- process_tweet users tweet ;;
      process_tweets users rest (processed_tweets ++ [processed_tweet])
  end.

(** Truth value of [response.data]: [None] and [[]] are falsy. *)
Definition truthy_data (d : option (list obj)) : bool :=
  match d with
  | Some (_ :: _) => true
  | _ => false
  end.

(** [for tweet in response.data]: the list to iterate over. *)
Definition iter_data (d : option (list obj)) : result (list obj) :=
  match d with
  | Some l => inr l
  | None => inl (TypeError "'NoneType' object is not iterable")
  end.

(** What stands between [try:] and [except]. *)
Definition fetch (self : TwitterStream) (count : Z) : M (list NormalizedRecord) :=
  let tweet_fields := ["created_at"; "public_metrics"; "text"] in
  let user_fields := ["username"; "name"; "profile_image_url"] in
  let expansions := ["author_id"] in
  response <- search_recent_tweets (client self)
                (mk_request (query self) count tweet_fields user_fields expansions) ;;
  if negb (truthy_data (data response)) then
    logging_warning ("No tweets found matching query: " +:+ query self) ;;
    ret []
  else
    let processed_tweets := [] in
    users <- lift (users_of response) ;;
    tweets <- lift (iter_data (data response)) ;;
    processed_tweets <- process_tweets users tweets processed_tweets ;;
    logging_info ("Fetched " +:+ pretty (length processed_tweets)
                  +:+ " tweets with hashtag " +:+ hashtag self) ;;
    ret processed_tweets.

Definition get_recent_tweets (self : TwitterStream) (count : Z) : M (list NormalizedRecord) :=
  try_except (fetch self count)
    (λ e,
       logging_error ("Error fetching tweets: " +:+ exn_str e) ;;
       ret []).

(** [count=10] *)
Definition default_count : Z := 10.

(** ** [get_stream_sample] *)

(** Truth value of a list: [[]] is falsy. *)
Definition truthy_list {A} (l : list A) : bool :=
  match l with
  | [] => false
  | _ :: _ => true
  end.

Definition get_stream_sample (self : TwitterStream) : M (option NormalizedRecord) :=
  tweets <- get_recent_tweets self 5 ;;
  if negb (truthy_list tweets) then ret None
  else ret (if truthy_list tweets then tweets !! 0%nat else None).

End Formatting.

(** * The vocabulary of the properties *)

(** [needle] occurs in [s]. *)
Definition occurs_in (needle s : string) : Prop :=
  ∃ pre post, s = pre +:+ needle +:+ post.

(** The five variables with the values a [credentials] record holds for
    them, in the order [_validate_credentials] examines them. *)
Definition credential_variables (c : credentials) : list (string * option string) :=
  [("TWITTER_BEARER_TOKEN", bearer_token c);
   ("TWITTER_API_KEY", api_key c);
   ("TWITTER_API_SECRET", api_secret c);
   ("TWITTER_ACCESS_TOKEN", access_token c);
   ("TWITTER_ACCESS_TOKEN_SECRET", access_token_secret c)].

(** What lines 16 to 20 of [__init__] read from the environment. *)
Definition read_credentials (w : world) : credentials :=
  mk_credentials (environ w !! "TWITTER_BEARER_TOKEN")
                 (environ w !! "TWITTER_API_KEY")
                 (environ w !! "TWITTER_API_SECRET")
                 (environ w !! "TWITTER_ACCESS_TOKEN")
                 (environ w !! "TWITTER_ACCESS_TOKEN_SECRET").

(** Either scheme is complete. *)
Definition credentials_complete (c : credentials) : bool :=
  is_set (bearer_token c)
  || (is_set (api_key c) && is_set (api_secret c)
      && is_set (access_token c) && is_set (access_token_secret c)).

(** The arguments [_initialize_client] hands to [tweepy.Client]. *)
Definition client_arguments (c : credentials) : Client :=
  if is_set (bearer_token c) then mk_Client (bearer_token c) None None None None
  else mk_Client None (api_key c) (api_secret c) (access_token c) (access_token_secret c).

(** The names of the five variables. *)
Definition credential_names : list string :=
  ["TWITTER_BEARER_TOKEN"; "TWITTER_API_KEY"; "TWITTER_API_SECRET";
   "TWITTER_ACCESS_TOKEN"; "TWITTER_ACCESS_TOKEN_SECRET"].

(** The world with one variable removed from the environment. *)
Definition unset (name : string) (w : world) : world :=
  mk_world (delete name (environ w)) (clock w) (ticks w) (new_client w) (search w)
           (calls w) (log w).

(** The request [get_recent_tweets] sends. *)
Definition request_of (self : TwitterStream) (count : Z) : search_request :=
  mk_request (query self) count ["created_at"; "public_metrics"; "text"]
             ["username"; "name"; "profile_image_url"] ["author_id"].

(** The author side-table of a response: [includes['users']], empty when
    the response includes none. *)
Definition side_table (r : response) : list obj :=
  default [] (includes r !! "users").

(** The world after one reading of the clock. *)
Definition tick (w : world) : world :=
  mk_world (environ w) (clock w) (S (ticks w)) (new_client w) (search w)
           (calls w) (log w).

(** The world after one call of the client. *)
Definition called (w : world) : world :=
  mk_world (environ w) (clock w) (ticks w) (new_client w) (search w)
           (S (calls w)) (log w).

Section Runs.

Variable py_str : field → string.

(** What a run of the loop body that ends normally has done: [r] is the
    record built for [tweet], [w'] the world it leaves. *)
Definition normalizes (users : gmap scalar obj) (tweet : obj) (w : world)
    (r : NormalizedRecord) (w' : world) : Prop :=
  ∃ user,
    author_of users tweet = inr user
    ∧ username_of py_str user = inr (r_username r)
    ∧ timestamp_of tweet w = (inr (r_timestamp r), w')
    ∧ getattr tweet "id" = inr (r_id r)
    ∧ getattr tweet "text" = inr (r_text r)
    ∧ user_followers_of user = inr (r_user_followers r)
    ∧ metric_of tweet "retweet_count" = inr (r_retweet_count r)
    ∧ metric_of tweet "like_count" = inr (r_like_count r).

(** A run of the loop over [tweets] from world [w] that ends normally in
    world [w'] with the records [rs], one step of [normalizes] per tweet. *)
Inductive normalizes_all (users : gmap scalar obj) :
    list obj → world → list NormalizedRecord → world → Prop :=
  | normalizes_nil w : normalizes_all users [] w [] w
  | normalizes_cons tweet tweets w r w1 rs w' :
      normalizes users tweet w r w1 →
      normalizes_all users tweets w1 rs w' →
      normalizes_all users (tweet :: tweets) w (r :: rs) w'.

End Runs.

(** [w'] differs from [w] at most in the clock's counter, which has not
    gone back. *)
Definition same_but_ticks (w w' : world) : Prop :=
  environ w' = environ w ∧ clock w' = clock w ∧ new_client w' = new_client w
  ∧ search w' = search w ∧ calls w' = calls w ∧ log w' = log w
  ∧ (ticks w ≤ ticks w')%nat.

(** ** Well-formed responses *)

(** The attribute holds a hashable value. *)
Definition has_hashable (o : obj) (name : string) : bool :=
  match attrs o !! name with
  | Some (FScalar _) => true
  | _ => false
  end.

(** The attribute is not there, or holds a [dict]. *)
Definition mapping_or_absent (o : obj) (name : string) : bool :=
  match attrs o !! name with
  | Some (FDict _) | None => true
  | Some (FScalar _) => false
  end.

(** The attribute is there and holds a [datetime] or a falsy value. *)
Definition datetime_or_falsy (o : obj) (name : string) : bool :=
  match attrs o !! name with
  | Some (FScalar (STime _)) => true
  | Some c => negb (truthy c)
  | None => false
  end.

(** A tweet that the loop body can normalize: [id], [text], a hashable
    [author_id], [created_at] a [datetime] or [None], and
    [public_metrics], if present at all, a mapping. *)
Definition well_formed_tweet (tweet : obj) : bool :=
  has_hashable tweet "author_id" && datetime_or_falsy tweet "created_at"
  && hasattr tweet "id" && hasattr tweet "text"
  && mapping_or_absent tweet "public_metrics".

(** An author of the side-table: a hashable [id], a [username], and
    [public_metrics], if present at all, a mapping. *)
Definition well_formed_user (user : obj) : bool :=
  has_hashable user "id" && hasattr user "username"
  && mapping_or_absent user "public_metrics".

(** ** Sample data *)

(** A world with nothing in the environment but [env], a client that never
    fails to construct and answers every search with [r]. *)
Definition quiet_world (env : list (string * string)) (r : result response) : world :=
  mk_world (list_to_map env) (λ n, mk_datetime 2025 1 2 3 4 (Z.of_nat (n mod 60))) 0
           (λ _, None) (λ _ _ _, r) 0 [].

Definition empty_response : response := mk_response None ∅.

Definition sample_credentials : credentials :=
  mk_credentials (Some "token") None None None None.

Definition sample_stream : TwitterStream :=
  mk_TwitterStream sample_credentials (client_arguments sample_credentials)
                   default_hashtag (default_hashtag +:+ " -is:retweet").

(** A tweet whose author is not in the side-table, without metrics and
    without a creation time. *)
Definition orphan_tweet : obj :=
  mk_obj "Tweet" (list_to_map
    [("id", FScalar (SInt 1)); ("text", FScalar (SStr "hello"));
     ("created_at", FScalar SNone); ("author_id", FScalar (SInt 42))]).

Definition bob : obj :=
  mk_obj "User" (list_to_map
    [("id", FScalar (SInt 7)); ("username", FScalar (SStr "bob"));
     ("public_metrics", FDict (list_to_map [("followers_count", SInt 12)]))]).

Definition bob_tweet : obj :=
  mk_obj "Tweet" (list_to_map
    [("id", FScalar (SInt 2)); ("text", FScalar (SStr "world"));
     ("created_at", FScalar (STime (mk_datetime 2024 3 9 7 5 0)));
     ("author_id", FScalar (SInt 7));
     ("public_metrics", FDict (list_to_map [("like_count", SInt 3)]))]).

Definition sample_response : response :=
  mk_response (Some [orphan_tweet; bob_tweet]) (list_to_map [("users", [bob])]).

Definition sample_world : world :=
  quiet_world [("TWITTER_BEARER_TOKEN", "token")] (inr sample_response).

Definition orphan_record : NormalizedRecord :=
  mk_record (FScalar (SInt 1)) "Unknown User" (FScalar (SStr "hello"))
            "2025-01-02 03:04:00" (SInt 0) (SInt 0) (SInt 0).

Definition bob_record : NormalizedRecord :=
  mk_record (FScalar (SInt 2)) "@bob" (FScalar (SStr "world"))
            "2024-03-09 07:05:00" (SInt 12) (SInt 0) (SInt 3).

(** A tweet without a [text] attribute. *)
Definition textless_tweet : obj :=
  mk_obj "Tweet" (list_to_map
    [("id", FScalar (SInt 3)); ("created_at", FScalar SNone);
     ("author_id", FScalar (SInt 42))]).

Definition textless_response : response := mk_response (Some [textless_tweet]) ∅.

Definition textless_world : world :=
  quiet_world [("TWITTER_BEARER_TOKEN", "token")] (inr textless_response).

(** An author whose [public_metrics] attribute is there and holds [None],
    and a response with one tweet of that author. *)
Definition carol : obj :=
  mk_obj "User" (list_to_map
    [("id", FScalar (SInt 7)); ("username", FScalar (SStr "carol"));
     ("public_metrics", FScalar SNone)]).

Definition carol_response : response :=
  mk_response (Some [bob_tweet]) (list_to_map [("users", [carol])]).

Definition carol_world : world :=
  quiet_world [("TWITTER_BEARER_TOKEN", "token")] (inr carol_response).

(** A world whose client answers every search with an exception. *)
Definition failing_world : world :=
  quiet_world [("TWITTER_BEARER_TOKEN", "token")]
              (inl (ClientError "TooManyRequests" "429 Too Many Requests")).

Definition plain_str : field → string := λ _, "".

Definition empty_string_world : world :=
  quiet_world [("TWITTER_BEARER_TOKEN", ""); ("TWITTER_API_KEY", "key")]
              (inr empty_response).

Definition no_credentials : credentials := mk_credentials None None None None None.

Definition sample_final_world : world :=
  (get_recent_tweets plain_str sample_stream 10 sample_world).2.

(** ** Further vocabulary *)

(** The world with one variable of the environment set to [v]. *)
Definition setenv (name v : string) (w : world) : world :=
  mk_world (<[name := v]> (environ w)) (clock w) (ticks w) (new_client w) (search w)
           (calls w) (log w).

(** The tweet has a [created_at] attribute and its value is falsy: the case
    in which line 109 reads the clock. *)
Definition lacks_creation_time (tweet : obj) : bool :=
  match attrs tweet !! "created_at" with
  | Some c => negb (truthy c)
  | None => false
  end.

(** The number of tweets of a list for which the clock is read. *)
Definition clock_readings (tweets : list obj) : nat :=
  length (List.filter lacks_creation_time tweets).

(** What a call may change in the world: the counter of calls goes up by
    one and the clock's counter does not go back; the environment, the
    clock, the client constructor and the answers of the client stay. *)
Definition after_one_call (w w' : world) : Prop :=
  environ w' = environ w ∧ clock w' = clock w ∧ new_client w' = new_client w
  ∧ search w' = search w ∧ calls w' = S (calls w) ∧ (ticks w ≤ ticks w')%nat.

(** What construction may change in the world: nothing but the log, which
    only grows. *)
Definition only_logged (w w' : world) : Prop :=
  environ w' = environ w ∧ clock w' = clock w ∧ ticks w' = ticks w
  ∧ new_client w' = new_client w ∧ search w' = search w ∧ calls w' = calls w
  ∧ ∃ added, log w' = (log w ++ added)%list.

(** A world whose environment holds the four OAuth values and an empty
    bearer token. *)
Definition oauth_world : world :=
  quiet_world [("TWITTER_BEARER_TOKEN", ""); ("TWITTER_API_KEY", "key");
               ("TWITTER_API_SECRET", "secret"); ("TWITTER_ACCESS_TOKEN", "at");
               ("TWITTER_ACCESS_TOKEN_SECRET", "ats")] (inr empty_response).

(** A world whose [tweepy.Client] constructor raises. *)
Definition broken_client_world : world :=
  mk_world (list_to_map [("TWITTER_BEARER_TOKEN", "token")])
           (λ n, mk_datetime 2025 1 2 3 4 (Z.of_nat (n mod 60))) 0
           (λ _, Some (TypeError "unexpected keyword argument")) (λ _ _ _, inr empty_response)
           0 [].

(** Two authors with the same id. *)
Definition bob_renamed : obj :=
  mk_obj "User" (list_to_map
    [("id", FScalar (SInt 7)); ("username", FScalar (SStr "robert"))]).

Definition twin_response : response :=
  mk_response (Some [bob_tweet]) (list_to_map [("users", [bob; bob_renamed])]).

Definition twin_world : world :=
  quiet_world [("TWITTER_BEARER_TOKEN", "token")] (inr twin_response).

Definition twin_record : NormalizedRecord :=
  mk_record (FScalar (SInt 2)) "@robert" (FScalar (SStr "world"))
            "2024-03-09 07:05:00" (SInt 0) (SInt 0) (SInt 3).

Definition twin_final_world : world :=
  (get_recent_tweets plain_str sample_stream 10 twin_world).2.

(** ** The timestamp, character by character *)

(** The last decimal digit of [n], as a character. *)
Definition digit_of (n : Z) : ascii := ascii_of_nat (48 + Z.to_nat (n mod 10)).

(** The nineteen characters [YYYY-MM-DD HH:MM:SS] of a time whose year has
    four digits, written out from its components. *)
Definition seconds_text (d : datetime) : string :=
  string_of_list_ascii
    [digit_of (year d / 1000); digit_of (year d / 100); digit_of (year d / 10);
     digit_of (year d); "-"%char;
     digit_of (month d / 10); digit_of (month d); "-"%char;
     digit_of (day d / 10); digit_of (day d); " "%char;
     digit_of (hour d / 10); digit_of (hour d); ":"%char;
     digit_of (minute d / 10); digit_of (minute d); ":"%char;
     digit_of (second d / 10); digit_of (second d)].

(** ** The author of a post *)

(** The author carries [key] as its [id]. *)
Definition has_id (key : scalar) (u : obj) : bool :=
  match attrs u !! "id" with
  | Some (FScalar k) => bool_decide (k = key)
  | _ => false
  end.

(** The author of the side-table that a post with the author id [key] is
    given: the last one with that id, if any. *)
Fixpoint author_in (side : list obj) (key : scalar) : option obj :=
  match side with
  | [] => None
  | u :: rest =>
      match author_in rest key with
      | Some later => Some later
      | None => if has_id key u then Some u else None
      end
  end.

(** What lines 106 and 116 read of an author: a [username], and
    [public_metrics], if present at all, a mapping. *)
Definition presentable (u : obj) : bool :=
  hasattr u "username" && mapping_or_absent u "public_metrics".

(** The author the side-table gives to the post, if any, is presentable. *)
Definition author_presentable (side : list obj) (tweet : obj) : bool :=
  match attrs tweet !! "author_id" with
  | Some (FScalar key) =>
      match author_in side key with
      | Some u => presentable u
      | None => true
      end
  | _ => true
  end.

(** The post lacks one of the four attributes the loop reads unguarded. *)
Definition lacks_required (tweet : obj) : bool :=
  negb (hasattr tweet "id" && hasattr tweet "text"
        && hasattr tweet "author_id" && hasattr tweet "created_at").

(** ** More sample data *)

(** A world whose client is interrupted during the search. *)
Definition interrupted_world : world :=
  quiet_world [("TWITTER_BEARER_TOKEN", "token")] (inl KeyboardInterrupt).

(** A world whose [tweepy.Client] constructor is interrupted. *)
Definition interrupted_client_world : world :=
  mk_world (list_to_map [("TWITTER_BEARER_TOKEN", "token")])
           (λ n, mk_datetime 2025 1 2 3 4 (Z.of_nat (n mod 60))) 0
           (λ _, Some KeyboardInterrupt) (λ _ _ _, inr empty_response) 0 [].

(** A tweet as tweepy builds it from a payload without [public_metrics]:
    the attribute is there and holds [None]. *)
Definition bare_tweet : obj :=
  mk_obj "Tweet" (list_to_map
    [("id", FScalar (SInt 4)); ("text", FScalar (SStr "plain"));
     ("created_at", FScalar SNone); ("author_id", FScalar (SInt 42));
     ("public_metrics", FScalar SNone)]).

Definition bare_response : response := mk_response (Some [bare_tweet]) ∅.

Definition bare_world : world :=
  quiet_world [("TWITTER_BEARER_TOKEN", "token")] (inr bare_response).

(** A second tweet created in the same second as [bob_tweet]. *)
Definition echo_tweet : obj :=
  mk_obj "Tweet" (list_to_map
    [("id", FScalar (SInt 5)); ("text", FScalar (SStr "again"));
     ("created_at", FScalar (STime (mk_datetime 2024 3 9 7 5 0)));
     ("author_id", FScalar (SInt 42))]).

Definition echo_response : response :=
  mk_response (Some [bob_tweet; echo_tweet]) ∅.

Definition echo_world : world :=
  quiet_world [("TWITTER_BEARER_TOKEN", "token")] (inr echo_response).

Definition echo_records : list NormalizedRecord :=
  [mk_record (FScalar (SInt 2)) "Unknown User" (FScalar (SStr "world"))
             "2024-03-09 07:05:00" (SInt 0) (SInt 0) (SInt 3);
   mk_record (FScalar (SInt 5)) "Unknown User" (FScalar (SStr "again"))
             "2024-03-09 07:05:00" (SInt 0) (SInt 0) (SInt 0)].

Definition echo_final_world : world :=
  (get_recent_tweets plain_str sample_stream 10 echo_world).2.

(** * Properties *)

(** ** Strings *)

Lemma append_cons (x : ascii) (a b : string) : String x a +:+ b = String x (a +:+ b).
Proof. reflexivity. Qed.

Lemma append_assoc (a b c : string) : (a +:+ b) +:+ c = a +:+ b +:+ c.
Proof. induction a as [|x a IH]; [done | by rewrite !append_cons, IH]. Qed.

Lemma append_nil_r (a : string) : a +:+ "" = a.
Proof. induction a as [|x a IH]; [done | by rewrite append_cons, IH]. Qed.

Lemma occurs_in_append_r (needle a b : string) :
  occurs_in needle b → occurs_in needle (a +:+ b).
Proof.
  intros (pre & post & ->). exists (a +:+ pre), post.
  by rewrite append_assoc.
Qed.

(** Every element of a joined list occurs in the result of the join. *)
Lemma occurs_in_concat (sep name : string) (l : list string) :
  name ∈ l → occurs_in name (String.concat sep l).
Proof.
  induction l as [|x l IH]; intros Hin.
  - by apply elem_of_nil in Hin.
  - apply elem_of_cons in Hin as [-> | Hin].
    + destruct l as [|y l]; simpl.
      * exists "", "". by rewrite append_nil_r.
      * by exists "", (sep +:+ String.concat sep (y :: l)).
    + destruct l as [|y l]; [by apply elem_of_nil in Hin |].
      change (String.concat sep (x :: y :: l))
        with (x +:+ sep +:+ String.concat sep (y :: l)).
      by do 2 apply occurs_in_append_r; apply IH.
Qed.

(** ** Credentials *)

Lemma missing_credentials_spec (c : credentials) (name : string) (v : option string) :
  (name, v) ∈ credential_variables c →
  (name ∈ missing_credentials c ↔ is_set v = false).
Proof.
  unfold credential_variables, missing_credentials, append_if_missing.
  intros H.
  repeat (apply elem_of_cons in H as [H|H]); [..|by apply elem_of_nil in H];
    simplify_eq;
    destruct (is_set (bearer_token c)), (is_set (api_key c)),
      (is_set (api_secret c)), (is_set (access_token c)),
      (is_set (access_token_secret c)); simpl;
    rewrite ?elem_of_cons, ?elem_of_nil; split; intros; try done;
    repeat match goal with H : _ ∨ _ |- _ => destruct H end; try done; eauto 10.
Qed.

Lemma validate_credentials_cases (c : credentials) :
  _validate_credentials c =
    if credentials_complete c then inr ()
    else inl (ValueError (credentials_message
                          +:+ String.concat ", " (missing_credentials c))).
Proof.
  unfold _validate_credentials, credentials_complete.
  by destruct (is_set (bearer_token c)), (is_set (api_key c) && _ && _ && _).
Qed.

Lemma initialize_client_run (c : credentials) (w : world) :
  _initialize_client c w =
    match new_client w (client_arguments c) with
    | Some e =>
        (inl e,
         if is_Exception e
         then add_log (mk_log ERROR ("Error initializing Twitter v2 client: "
                                     +:+ exn_str e)) w
         else w)
    | None =>
        (inr (client_arguments c),
         add_log (mk_log INFO (if is_set (bearer_token c)
                               then "Twitter API v2 client initialized with Bearer Token"
                               else "Twitter API v2 client initialized with OAuth 1.0a")) w)
    end.
Proof.
  unfold _initialize_client, client_arguments, try_except, bind, tweepy_Client.
  destruct (is_set (bearer_token c)); simpl;
    (destruct (new_client w _) as [e|]; [by destruct (is_Exception e) | done]).
Qed.

Lemma init_run (tag : string) (w : world) :
  __init__ tag w =
    match _validate_credentials (read_credentials w) with
    | inl e => (inl e, w)
    | inr _ =>
        match _initialize_client (read_credentials w) w with
        | (inl e, w') => (inl e, w')
        | (inr cl, w') =>
            (inr (mk_TwitterStream (read_credentials w) cl tag (tag +:+ " -is:retweet")),
             add_log (mk_log INFO ("TwitterStream initialized for hashtag: " +:+ tag)) w')
        end
    end.
Proof.
  unfold __init__, bind, environ_get, lift, read_credentials. simpl.
  destruct (_validate_credentials _); [done |].
  by destruct (_initialize_client _ w) as [[e|cl] w'].
Qed.

(** C3. For every environment, [_validate_credentials] passes exactly when
    the bearer token is set or all four OAuth values are; construction
    succeeds exactly when it passes and the tweepy constructor returns;
    and when validation does not pass, construction raises the
    [ValueError] whose message is the fixed text followed by the joined
    list of missing names, a list that holds exactly the names among the
    five whose value is not set, each of which occurs in the message. *)
Theorem credentials_validated (tag : string) (w : world) :
  (_validate_credentials (read_credentials w) = inr ()
   ↔ is_set (bearer_token (read_credentials w)) = true
     ∨ (is_set (api_key (read_credentials w)) = true
        ∧ is_set (api_secret (read_credentials w)) = true
        ∧ is_set (access_token (read_credentials w)) = true
        ∧ is_set (access_token_secret (read_credentials w)) = true))
  ∧ ((∃ self w', __init__ tag w = (inr self, w'))
     ↔ _validate_credentials (read_credentials w) = inr ()
       ∧ new_client w (client_arguments (read_credentials w)) = None)
  ∧ (_validate_credentials (read_credentials w) ≠ inr () →
       __init__ tag w
       = (inl (ValueError (credentials_message
                           +:+ String.concat ", "
                                 (missing_credentials (read_credentials w)))), w)
       ∧ ∀ name v, (name, v) ∈ credential_variables (read_credentials w) →
           (name ∈ missing_credentials (read_credentials w) ↔ is_set v = false)
           ∧ (is_set v = false →
              occurs_in name
                (credentials_message
                 +:+ String.concat ", " (missing_credentials (read_credentials w))))).
Proof.
  rewrite init_run, initialize_client_run.
  generalize (read_credentials w). intros c.
  rewrite (validate_credentials_cases c). unfold credentials_complete.
  split; [|split].
  - destruct (is_set (bearer_token c)), (is_set (api_key c)),
      (is_set (api_secret c)), (is_set (access_token c)),
      (is_set (access_token_secret c)); simpl; intuition congruence.
  - destruct (_ || _); simpl; [destruct (new_client w _) |];
      (split; [intros (? & ? & ?) | intros [? ?]]); simplify_eq; eauto.
  - destruct (_ || _); [done |]. intros _. split; [done |].
    intros name v Hin. pose proof (missing_credentials_spec c name v Hin) as Hm.
    split; [done |]. intros Hv.
    apply occurs_in_append_r, occurs_in_concat. by apply Hm.
Qed.

(** C9. A variable set to the empty string counts as missing: validation
    answers as it does with the variable removed from the environment,
    construction fails in the one world with exactly the exceptions it
    fails with in the other, and when validation fails the name of the
    variable is in the list of missing names and occurs in the message. *)
Theorem empty_credential_is_missing (tag name : string) (w : world) :
  name ∈ credential_names →
  environ w !! name = Some "" →
  _validate_credentials (read_credentials w)
  = _validate_credentials (read_credentials (unset name w))
  ∧ (∀ e, (__init__ tag w).1 = inl e ↔ (__init__ tag (unset name w)).1 = inl e)
  ∧ (_validate_credentials (read_credentials w) ≠ inr () →
       name ∈ missing_credentials (read_credentials w)
       ∧ ∃ msg, _validate_credentials (read_credentials w) = inl (ValueError msg)
                ∧ occurs_in name msg).
Proof.
  intros Hname Hempty. set (c := read_credentials w).
  assert (Hread : ∀ n, n ≠ name → environ (unset name w) !! n = environ w !! n)
    by (intros n Hn; simpl; by rewrite lookup_delete_ne).
  assert (Hgone : environ (unset name w) !! name = None)
    by (simpl; apply lookup_delete_eq).
  assert (Hargs : _validate_credentials c = _validate_credentials (read_credentials (unset name w))
          ∧ (_validate_credentials c = inr () →
             client_arguments c = client_arguments (read_credentials (unset name w)))).
  { subst c. rewrite !validate_credentials_cases.
    unfold credentials_complete, client_arguments, missing_credentials,
      append_if_missing, read_credentials; cbn [bearer_token api_key api_secret
      access_token access_token_secret].
    unfold credential_names in Hname.
    repeat (apply elem_of_cons in Hname as [->|Hname]); [..|by apply elem_of_nil in Hname];
      rewrite Hgone, Hempty, !Hread by done; simpl;
      repeat (match goal with |- context [is_set ?x] => destruct (is_set x) end; simpl);
      done. }
  destruct Hargs as [Hval Hargs].
  split; [done |]. split.
  - intros e. rewrite !init_run, !initialize_client_run. simpl.
    fold c. rewrite <- Hval.
    destruct (_validate_credentials c) as [e'|[]] eqn:Hv; simpl; [done |].
    rewrite <- Hargs by done.
    by destruct (new_client w (client_arguments c)).
  - intros Hfail.
    assert (Hin : name ∈ missing_credentials c).
    { unfold credential_names in Hname.
      repeat (apply elem_of_cons in Hname as [->|Hname]); [..|by apply elem_of_nil in Hname];
        (eapply missing_credentials_spec;
         [unfold credential_variables; rewrite !elem_of_cons; eauto 10
         | subst c; simpl; by rewrite Hempty ]). }
    split; [done |].
    rewrite validate_credentials_cases in Hfail |- *.
    destruct (credentials_complete c); [done |].
    eexists; split; [done |].
    by apply occurs_in_append_r, occurs_in_concat.
Qed.

(** C10. Whenever [_validate_credentials] raises, the list of missing names
    begins with TWITTER_BEARER_TOKEN, which therefore follows the fixed
    text of the message, and construction from an environment holding
    these credentials fails with that very exception. *)
Theorem missing_names_include_bearer_token (c : credentials) (e : exn) :
  _validate_credentials c = inl e →
  "TWITTER_BEARER_TOKEN" ∈ missing_credentials c
  ∧ e = ValueError (credentials_message +:+ String.concat ", " (missing_credentials c))
  ∧ (∃ rest, e = ValueError (credentials_message +:+ "TWITTER_BEARER_TOKEN" +:+ rest))
  ∧ ∀ tag w, read_credentials w = c → __init__ tag w = (inl e, w).
Proof.
  intros Hfail.
  assert (Hb : is_set (bearer_token c) = false).
  { unfold _validate_credentials in Hfail. by destruct (is_set (bearer_token c)). }
  rewrite validate_credentials_cases in Hfail.
  destruct (credentials_complete c) eqn:Hc; [done |]. simplify_eq.
  split; [|split; [done|split]].
  - eapply missing_credentials_spec; [|exact Hb].
    unfold credential_variables. apply elem_of_cons. by left.
  - unfold missing_credentials, append_if_missing. rewrite Hb. simpl.
    destruct (is_set (api_key c)), (is_set (api_secret c)),
      (is_set (access_token c)), (is_set (access_token_secret c)); simpl;
      eexists; reflexivity.
  - intros tag w <-. rewrite init_run. simpl.
    rewrite validate_credentials_cases, Hc. done.
Qed.

(** ** Normalization *)

Section Normalization.

Variable py_str : field → string.

Lemma process_tweet_normalizes users tweet w r w' :
  process_tweet py_str users tweet w = (inr r, w') ↔ normalizes py_str users tweet w r w'.
Proof.
  unfold process_tweet, normalizes, bind, lift, ret.
  split.
  - intros H.
    destruct (author_of users tweet) as [?|user]; [by cbv beta iota in H |].
    destruct (username_of py_str user) as [?|username] eqn:Hname;
      [by cbv beta iota in H |].
    destruct (timestamp_of tweet w) as [[?|timestamp] w1]; [by cbv beta iota in H |].
    destruct (getattr tweet "id") as [?|id]; [by cbv beta iota in H |].
    destruct (getattr tweet "text") as [?|text]; [by cbv beta iota in H |].
    destruct (user_followers_of user) as [?|followers] eqn:Hfollowers;
      [by cbv beta iota in H |].
    destruct (metric_of tweet "retweet_count") as [?|rc]; [by cbv beta iota in H |].
    destruct (metric_of tweet "like_count") as [?|lc]; [by cbv beta iota in H |].
    cbv beta iota in H.
    injection H as <- <-. by exists user.
  - intros (user & -> & -> & -> & -> & -> & -> & -> & ->). by destruct r.
Qed.

Lemma timestamp_of_inv tweet w s w' :
  timestamp_of tweet w = (inr s, w') ↔
  ∃ created_at,
    getattr tweet "created_at" = inr created_at
    ∧ if truthy created_at then
        ∃ d, created_at = FScalar (STime d)
             ∧ s = strftime d timestamp_format ∧ w' = w
      else s = strftime (clock w (ticks w)) timestamp_format ∧ w' = tick w.
Proof.
  unfold timestamp_of, bind, lift, ret, datetime_now, call_strftime, tick.
  destruct (getattr tweet "created_at") as [e|c]; cbv beta iota.
  - split; [done | by intros (? & ? & _)].
  - split.
    + intros H. exists c. split; [done |].
      destruct (truthy c); [| by injection H as <- <-].
      destruct c as [[| | |d]|]; try done.
      injection H as <- <-. by exists d.
    + intros (c' & [= <-] & H).
      destruct (truthy c).
      * by destruct H as (d & -> & -> & ->).
      * by destruct H as (-> & ->).
Qed.

Lemma process_tweets_normalizes_all users tweets processed w l w' :
  process_tweets py_str users tweets processed w = (inr l, w') ↔
  ∃ rs, l = (processed ++ rs)%list ∧ normalizes_all py_str users tweets w rs w'.
Proof.
  revert processed w. induction tweets as [|tweet tweets IH]; intros processed w.
  - unfold process_tweets, ret. split.
    + intros [= <- <-]. exists []. split; [by rewrite app_nil_r | constructor].
    + intros (rs & -> & H). inversion H; subst. by rewrite app_nil_r.
  - change (process_tweets py_str users (tweet :: tweets) processed w)
      with (match process_tweet py_str users tweet w with
            | (inr r, w1) => process_tweets py_str users tweets (processed ++ [r]) w1
            | (inl e, w1) => (inl e, w1)
            end).
    split.
    + destruct (process_tweet py_str users tweet w) as [[e|r] w1] eqn:Hstep; [done |].
      intros (rs & -> & Hrest)%IH.
      exists (r :: rs). split; [by rewrite <- app_assoc |].
      econstructor; [by apply process_tweet_normalizes | done].
    + intros (rs & -> & H). inversion H as [|? ? ? r w1 rs' ? Hstep Hrest]; subst.
      apply process_tweet_normalizes in Hstep. rewrite Hstep.
      apply IH. exists rs'. split; [by rewrite <- app_assoc | done].
Qed.

Lemma normalizes_all_length users tweets w rs w' :
  normalizes_all py_str users tweets w rs w' → length rs = length tweets.
Proof. induction 1; simpl; congruence. Qed.

Lemma same_but_ticks_refl w : same_but_ticks w w.
Proof. by repeat split. Qed.

Lemma same_but_ticks_trans w1 w2 w3 :
  same_but_ticks w1 w2 → same_but_ticks w2 w3 → same_but_ticks w1 w3.
Proof.
  intros (? & ? & ? & ? & ? & ? & ?) (? & ? & ? & ? & ? & ? & ?).
  repeat split; try congruence. lia.
Qed.

Lemma normalizes_frame users tweet w r w' :
  normalizes py_str users tweet w r w' → same_but_ticks w w' ∧ (ticks w' ≤ S (ticks w))%nat.
Proof.
  intros (user & _ & _ & Ht & _).
  apply timestamp_of_inv in Ht as (c & _ & Ht).
  destruct (truthy c).
  - destruct Ht as (d & _ & _ & ->). split; [apply same_but_ticks_refl | lia].
  - destruct Ht as (_ & ->). split; [|done].
    repeat split; simpl; lia.
Qed.

Lemma normalizes_all_frame users tweets w rs w' :
  normalizes_all py_str users tweets w rs w' → same_but_ticks w w'.
Proof.
  induction 1 as [|tweet tweets w r w1 rs w' Hstep _ IH].
  - apply same_but_ticks_refl.
  - eapply same_but_ticks_trans; [|exact IH]. by eapply normalizes_frame.
Qed.

(** Each record of a run is the record of the tweet at its position, built
    in a world that differs from the first one in the clock's counter
    only. *)
Lemma normalizes_all_lookup users tweets w rs w' i tweet r :
  normalizes_all py_str users tweets w rs w' →
  tweets !! i = Some tweet → rs !! i = Some r →
  ∃ wi wi', normalizes py_str users tweet wi r wi'
            ∧ same_but_ticks w wi ∧ same_but_ticks wi' w'.
Proof.
  intros Hrun. revert i.
  induction Hrun as [|t tweets w r0 w1 rs w' Hstep Hrest IH]; intros i Ht Hr.
  - done.
  - destruct i as [|i]; simpl in Ht, Hr.
    + simplify_eq. exists w, w1. split; [done |].
      split; [apply same_but_ticks_refl | by eapply normalizes_all_frame].
    + destruct (IH i Ht Hr) as (wi & wi' & Hn & Hpre & Hpost).
      exists wi, wi'. split; [done |]. split; [|done].
      eapply same_but_ticks_trans; [|exact Hpre]. by eapply normalizes_frame.
Qed.

Lemma fetch_run self count w :
  fetch py_str self count w =
    match search w (calls w) (client self) (request_of self count) with
    | inl e => (inl e, called w)
    | inr resp =>
        if truthy_data (data resp) then
          match users_of resp with
          | inl e => (inl e, called w)
          | inr users =>
              match iter_data (data resp) with
              | inl e => (inl e, called w)
              | inr tweets =>
                  match process_tweets py_str users tweets [] (called w) with
                  | (inl e, w1) => (inl e, w1)
                  | (inr l, w1) =>
                      (inr l, add_log (mk_log INFO ("Fetched " +:+ pretty (length l)
                                       +:+ " tweets with hashtag " +:+ hashtag self)) w1)
                  end
              end
          end
        else (inr [], add_log (mk_log WARNING ("No tweets found matching query: "
                                               +:+ query self)) (called w))
    end.
Proof.
  unfold fetch, bind, search_recent_tweets, request_of, called, lift, ret,
    logging_warning, logging_info.
  destruct (search w (calls w) _ _) as [e|resp]; cbv beta iota; [done |].
  destruct (truthy_data (data resp)); cbn [negb]; cbv beta iota; [|done].
  destruct (users_of resp) as [e|users]; cbv beta iota; [done |].
  destruct (iter_data (data resp)) as [e|tweets]; cbv beta iota; [done |].
  by destruct (process_tweets py_str users tweets [] _) as [[e|l] w1].
Qed.

Lemma get_recent_tweets_run self count w :
  get_recent_tweets py_str self count w =
    match fetch py_str self count w with
    | (inr l, w1) => (inr l, w1)
    | (inl e, w1) =>
        if is_Exception e
        then (inr [], add_log (mk_log ERROR ("Error fetching tweets: "
                                             +:+ exn_str e)) w1)
        else (inl e, w1)
    end.
Proof.
  unfold get_recent_tweets, try_except, bind, logging_error, ret.
  destruct (fetch py_str self count w) as [[e|l] w1]; [|done].
  by destruct (is_Exception e).
Qed.

(** A call that returns records has run the loop to its end over the
    tweets of the response. *)
Lemma get_recent_tweets_records self count w resp recs w' :
  search w (calls w) (client self) (request_of self count) = inr resp →
  get_recent_tweets py_str self count w = (inr recs, w') →
  recs ≠ [] →
  ∃ users tweets w1,
    data resp = Some tweets ∧ users_of resp = inr users
    ∧ normalizes_all py_str users tweets (called w) recs w1
    ∧ w' = add_log (mk_log INFO ("Fetched " +:+ pretty (length recs)
                     +:+ " tweets with hashtag " +:+ hashtag self)) w1.
Proof.
  intros Hsearch Hrun Hne.
  rewrite get_recent_tweets_run, fetch_run, Hsearch in Hrun.
  destruct (truthy_data (data resp)); [|by injection Hrun as <- _].
  destruct (users_of resp) as [e|users];
    [destruct (is_Exception e); [by injection Hrun as <- _ | done] |].
  destruct (data resp) as [tweets|];
    [|cbn [iter_data is_Exception] in Hrun; by injection Hrun as <- _].
  unfold iter_data in Hrun.
  destruct (process_tweets py_str users tweets [] (called w)) as [[e|l] w1] eqn:Hloop;
    [destruct (is_Exception e); [by injection Hrun as <- _ | done] |].
  injection Hrun as <- <-.
  apply process_tweets_normalizes_all in Hloop as (rs & -> & Hall).
  by exists users, tweets, w1.
Qed.

End Normalization.

(** ** The author table *)

Lemma users_by_id_lookup (l : list obj) (acc m : gmap scalar obj) (k : scalar) :
  users_by_id l acc = inr m →
  match m !! k with
  | Some u => (u ∈ l ∧ getattr u "id" = inr (FScalar k)) ∨ acc !! k = Some u
  | None => acc !! k = None ∧ ∀ u, u ∈ l → getattr u "id" ≠ inr (FScalar k)
  end.
Proof.
  revert acc. induction l as [|user rest IH]; intros acc.
  - intros [= <-]. destruct (acc !! k) eqn:E; [by right |].
    split; [done |]. intros u Hu. by apply elem_of_nil in Hu.
  - change (users_by_id (user :: rest) acc)
      with (id <~ getattr user "id" ;; key <~ hash_key id ;;
            users_by_id rest (<[key := user]> acc)).
    unfold rbind.
    destruct (getattr user "id") as [e|[key|d]] eqn:Hid; [done | | done].
    unfold hash_key. intros Hrest. specialize (IH _ Hrest).
    destruct (m !! k) as [u|].
    + destruct IH as [[Hin Hu]|Hacc].
      * left. split; [by apply elem_of_cons; right | done].
      * destruct (decide (key = k)) as [->|Hne].
        -- rewrite lookup_insert_eq in Hacc. injection Hacc as <-.
           left. split; [by apply elem_of_cons; left | done].
        -- rewrite lookup_insert_ne in Hacc by done. by right.
    + destruct IH as [Hacc Hrest'].
      destruct (decide (key = k)) as [->|Hne];
        [by rewrite lookup_insert_eq in Hacc |].
      rewrite lookup_insert_ne in Hacc by done.
      split; [done |]. intros u [->|Hu]%elem_of_cons; [|by apply Hrest'].
      rewrite Hid. congruence.
Qed.

(** The table [get_recent_tweets] looks authors up in holds, for an id,
    an author of the side-table with that id, and none exactly when the
    side-table has no author with that id. *)
Lemma users_of_lookup (r : response) (users : gmap scalar obj) (k : scalar) :
  users_of r = inr users →
  match users !! k with
  | Some u => u ∈ side_table r ∧ getattr u "id" = inr (FScalar k)
  | None => ∀ u, u ∈ side_table r → getattr u "id" ≠ inr (FScalar k)
  end.
Proof.
  unfold users_of, side_table.
  destruct (includes r !! "users") as [l|]; simpl.
  - intros H. pose proof (users_by_id_lookup l ∅ users k H) as Hk.
    destruct (users !! k).
    + destruct Hk as [?|Hk]; [done | by rewrite lookup_empty in Hk].
    + by destruct Hk.
  - intros [= <-]. rewrite lookup_empty. intros u Hu. by apply elem_of_nil in Hu.
Qed.

(** ** The timestamp format *)

Lemma is_digit_digit_char (z : Z) : is_digit (digit_char z) = true.
Proof.
  destruct z as [|p|p]; try reflexivity.
  do 4 (destruct p as [p|p|]; try reflexivity).
Qed.

Lemma string_of_list_ascii_app (l1 l2 : list ascii) :
  string_of_list_ascii (l1 ++ l2)
  = string_of_list_ascii l1 +:+ string_of_list_ascii l2.
Proof.
  induction l1 as [|c l1 IH]; [done |].
  cbn [app string_of_list_ascii]. by rewrite append_cons, IH.
Qed.

(** A number below [10 ^ width] prints as exactly [width] digits. *)
Lemma zero_padded_digits (width : nat) (n : Z) :
  (0 ≤ n < 10 ^ Z.of_nat width)%Z →
  ∃ l, length l = width ∧ forallb is_digit l = true
       ∧ zero_padded width n = string_of_list_ascii l.
Proof.
  revert n. induction width as [|width IH]; intros n Hn.
  - exists []. assert (n = 0%Z) as -> by (simpl in Hn; lia). done.
  - destruct (IH (n / 10)%Z) as (l & Hlen & Hdig & Hl).
    { rewrite Nat2Z.inj_succ, Z.pow_succ_r in Hn by lia.
      split; [apply Z.div_pos; lia | apply Z.div_lt_upper_bound; lia]. }
    exists (l ++ [digit_char (n mod 10)])%list. split; [|split].
    + rewrite length_app. simpl. lia.
    + rewrite forallb_app, Hdig. simpl. by rewrite is_digit_digit_char.
    + cbn [zero_padded]. by rewrite Hl, string_of_list_ascii_app.
Qed.

Lemma strftime_timestamp_format (d : datetime) :
  strftime d timestamp_format
  = zero_padded 1 (year d) +:+ "-" +:+ zero_padded 2 (month d) +:+ "-"
    +:+ zero_padded 2 (day d) +:+ " " +:+ zero_padded 2 (hour d) +:+ ":"
    +:+ zero_padded 2 (minute d) +:+ ":" +:+ zero_padded 2 (second d).
Proof.
  unfold timestamp_format. cbn [strftime directive].
  by rewrite !append_cons, append_nil_r.
Qed.

Lemma three_digits_check :
  forallb (λ k, bool_decide (pretty (Z.of_nat k) = zero_padded 3 (Z.of_nat k)))
          (seq 100 900) = true.
Proof. vm_compute. reflexivity. Qed.

(** A number of three digits prints as its three digits. *)
Lemma three_digits (m : Z) : (100 ≤ m ≤ 999)%Z → pretty m = zero_padded 3 m.
Proof.
  intros Hm. pose proof three_digits_check as H.
  rewrite forallb_forall in H. specialize (H (Z.to_nat m)).
  rewrite Z2Nat.id in H by lia.
  apply bool_decide_eq_true in H; [done |]. apply in_seq. lia.
Qed.

(** From the year 1000 on, the unpadded year has four digits. *)
Lemma year_unpadded (y : Z) :
  (1000 ≤ y ≤ 9999)%Z → zero_padded 1 y = zero_padded 4 y.
Proof.
  intros Hy.
  change (zero_padded 1 y)
    with ((if (y / 10 =? 0)%Z then "" else pretty (y / 10)%Z)
          +:+ String (digit_char (y mod 10)) "").
  change (zero_padded 4 y)
    with (zero_padded 3 (y / 10) +:+ String (digit_char (y mod 10)) "").
  assert (100 ≤ y / 10 ≤ 999)%Z as Hq.
  { pose proof (Z.div_le_lower_bound y 10 100 ltac:(lia) ltac:(lia)).
    pose proof (Z.div_lt_upper_bound y 10 1000 ltac:(lia) ltac:(lia)). lia. }
  destruct (Z.eqb_spec (y / 10) 0) as [H0|_]; [lia |].
  by rewrite three_digits.
Qed.

Lemma digit_char_digit_of (k : Z) : digit_char (k mod 10) = digit_of k.
Proof.
  unfold digit_of. pose proof (Z.mod_pos_bound k 10 ltac:(lia)) as Hr.
  generalize dependent (k mod 10)%Z. intros r Hr.
  assert (r = 0 ∨ r = 1 ∨ r = 2 ∨ r = 3 ∨ r = 4 ∨ r = 5 ∨ r = 6 ∨ r = 7
          ∨ r = 8 ∨ r = 9)%Z as Hr' by lia.
  repeat (destruct Hr' as [->|Hr']); try subst r; reflexivity.
Qed.

Lemma zero_padded_two (n : Z) :
  (0 ≤ n < 100)%Z →
  zero_padded 2 n = String (digit_of (n / 10)) (String (digit_of n) "").
Proof.
  intros Hn. cbn [zero_padded].
  assert (n / 10 / 10 = 0)%Z as ->
    by (rewrite Z.div_div by lia; apply Z.div_small; lia).
  by rewrite !digit_char_digit_of.
Qed.

Lemma zero_padded_four (n : Z) :
  (0 ≤ n < 10000)%Z →
  zero_padded 4 n
  = String (digit_of (n / 1000)) (String (digit_of (n / 100))
      (String (digit_of (n / 10)) (String (digit_of n) ""))).
Proof.
  intros Hn. cbn [zero_padded].
  assert (n / 10 / 10 = n / 100)%Z as -> by (by rewrite Z.div_div by lia).
  assert (n / 100 / 10 = n / 1000)%Z as -> by (by rewrite Z.div_div by lia).
  assert (n / 1000 / 10 = 0)%Z as ->
    by (rewrite Z.div_div by lia; apply Z.div_small; lia).
  by rewrite !digit_char_digit_of.
Qed.

(** The format, character by character, for a valid time from the year
    1000 on. *)
Lemma strftime_seconds_text (d : datetime) :
  valid_datetime d → four_digit_year d →
  strftime d timestamp_format = seconds_text d.
Proof.
  intros (Hy & Hmo & Hd & Hh & Hmi & Hs) Hy4. unfold four_digit_year in Hy4.
  rewrite strftime_timestamp_format, year_unpadded, zero_padded_four by lia.
  rewrite !zero_padded_two by lia. reflexivity.
Qed.

Lemma is_digit_digit_of (n : Z) : is_digit (digit_of n) = true.
Proof. rewrite <- digit_char_digit_of. apply is_digit_digit_char. Qed.

Lemma seconds_text_matches_pattern (d : datetime) :
  matches_timestamp_pattern (seconds_text d) = true.
Proof.
  unfold seconds_text.
  cbv [string_of_list_ascii matches_timestamp_pattern list_ascii_of_string forallb].
  by rewrite !is_digit_digit_of.
Qed.

Lemma strftime_matches_pattern (d : datetime) :
  valid_datetime d → four_digit_year d →
  matches_timestamp_pattern (strftime d timestamp_format) = true.
Proof.
  intros Hvalid Hyear. rewrite strftime_seconds_text by done.
  apply seconds_text_matches_pattern.
Qed.

Lemma strftime_nonempty (d : datetime) : strftime d timestamp_format ≠ "".
Proof.
  rewrite strftime_timestamp_format.
  change (zero_padded 1 (year d))
    with (zero_padded 0 (year d / 10) +:+ String (digit_char (year d mod 10)) "").
  generalize (zero_padded 0 (year d / 10)). by intros [|c s].
Qed.

(** ** Well-formed responses *)

Lemma hasattr_getattr (o : obj) (name : string) :
  hasattr o name = true → ∃ v, getattr o name = inr v.
Proof.
  unfold hasattr, getattr. intros [v Hv]%bool_decide_eq_true.
  exists v. by rewrite Hv.
Qed.

Lemma has_hashable_getattr (o : obj) (name : string) :
  has_hashable o name = true → ∃ k, getattr o name = inr (FScalar k).
Proof.
  unfold has_hashable, getattr.
  destruct (attrs o !! name) as [[k|d]|]; try done. by exists k.
Qed.

Lemma metric_of_inv (tweet : obj) (key : string) (v : scalar) :
  metric_of tweet key = inr v ↔
  match attrs tweet !! "public_metrics" with
  | None => v = SInt 0
  | Some (FDict d) => v = default (SInt 0) (d !! key)
  | Some (FScalar _) => False
  end.
Proof.
  unfold metric_of, hasattr, getattr, rbind, dict_get.
  destruct (attrs tweet !! "public_metrics") as [[s|d]|] eqn:E.
  - rewrite bool_decide_eq_true_2 by eauto. by destruct s.
  - rewrite bool_decide_eq_true_2 by eauto. split; congruence.
  - rewrite bool_decide_eq_false_2 by (by intros [? ?]). split; congruence.
Qed.

Lemma author_of_inv (users : gmap scalar obj) (tweet : obj) (user : option obj) :
  author_of users tweet = inr user ↔
  ∃ key, getattr tweet "author_id" = inr (FScalar key) ∧ user = users !! key.
Proof.
  unfold author_of, rbind, hash_key.
  destruct (getattr tweet "author_id") as [e|[key|d]].
  - split; [done | by intros (? & ? & _)].
  - split; [intros [= <-]; by exists key | by intros (? & [= <-] & ->)].
  - split; [done | by intros (? & ? & _)].
Qed.

Lemma users_by_id_total (l : list obj) (acc : gmap scalar obj) :
  forallb well_formed_user l = true → ∃ m, users_by_id l acc = inr m.
Proof.
  revert acc. induction l as [|user rest IH]; intros acc Hwf.
  - by exists acc.
  - cbn [forallb] in Hwf. apply andb_prop in Hwf as [Huser Hrest].
    unfold well_formed_user in Huser.
    apply andb_prop in Huser as [[Hid%has_hashable_getattr _]%andb_prop _].
    destruct Hid as [k Hk].
    change (users_by_id (user :: rest) acc)
      with (id <~ getattr user "id" ;; key <~ hash_key id ;;
            users_by_id rest (<[key := user]> acc)).
    rewrite Hk. unfold rbind, hash_key. by apply IH.
Qed.

Lemma users_of_total (r : response) :
  forallb well_formed_user (side_table r) = true →
  ∃ users, users_of r = inr users
           ∧ ∀ k u, users !! k = Some u → well_formed_user u = true.
Proof.
  intros Hwf.
  assert (∃ users, users_of r = inr users) as [users Husers].
  { revert Hwf. unfold users_of, side_table.
    destruct (includes r !! "users") as [l|]; simpl; [|by exists ∅].
    apply users_by_id_total. }
  exists users. split; [done |]. intros k u Hu.
  pose proof (users_of_lookup r users k Husers) as Hk. rewrite Hu in Hk.
  destruct Hk as [Hin _].
  rewrite forallb_forall in Hwf. by apply Hwf, list_elem_of_In.
Qed.

Section Records.

Variable py_str : field → string.

Lemma username_of_total (user : option obj) :
  (∀ u, user = Some u → well_formed_user u = true) →
  ∃ name, username_of py_str user = inr name.
Proof.
  destruct user as [u|]; intros Hwf; [|by exists "Unknown User"].
  specialize (Hwf u eq_refl). unfold well_formed_user in Hwf.
  apply andb_prop in Hwf as [[_ [h Hh]%hasattr_getattr]%andb_prop _].
  unfold username_of, rbind. rewrite Hh. by eexists.
Qed.

Lemma user_followers_of_total (user : option obj) :
  (∀ u, user = Some u → well_formed_user u = true) →
  ∃ n, user_followers_of user = inr n.
Proof.
  destruct user as [u|]; intros Hwf; [|by exists (SInt 0)].
  specialize (Hwf u eq_refl). unfold well_formed_user in Hwf.
  apply andb_prop in Hwf as [_ Hpm].
  unfold user_followers_of, getattr_default, dict_get.
  unfold mapping_or_absent in Hpm.
  destruct (attrs u !! "public_metrics") as [[s|d]|]; try done; by eexists.
Qed.

Lemma metric_of_total (tweet : obj) (key : string) :
  mapping_or_absent tweet "public_metrics" = true →
  ∃ n, metric_of tweet key = inr n.
Proof.
  intros Hpm. unfold mapping_or_absent in Hpm.
  destruct (attrs tweet !! "public_metrics") as [[s|d]|] eqn:E; try done;
    eexists; apply metric_of_inv; rewrite E; reflexivity.
Qed.

Lemma timestamp_of_total (tweet : obj) (w : world) :
  datetime_or_falsy tweet "created_at" = true →
  ∃ s w', timestamp_of tweet w = (inr s, w').
Proof.
  intros Hc. unfold datetime_or_falsy in Hc.
  destruct (attrs tweet !! "created_at") as [c|] eqn:E; [|done].
  assert (Hget : getattr tweet "created_at" = inr c)
    by (unfold getattr; by rewrite E).
  destruct (truthy c) eqn:Ht.
  - destruct c as [[| | |d]|]; try done.
    exists (strftime d timestamp_format), w.
    apply timestamp_of_inv. exists (FScalar (STime d)). split; [done |].
    by exists d.
  - exists (strftime (clock w (ticks w)) timestamp_format), (tick w).
    apply timestamp_of_inv. exists c. split; [done |]. by rewrite Ht.
Qed.

(** The loop body ends normally on a well-formed tweet, whatever the
    author table holds for it. *)
Lemma well_formed_normalizes (users : gmap scalar obj) (tweet : obj) (w : world) :
  well_formed_tweet tweet = true →
  (∀ k u, users !! k = Some u → well_formed_user u = true) →
  ∃ r w', normalizes py_str users tweet w r w'.
Proof.
  intros Hwf Husers. unfold well_formed_tweet in Hwf.
  apply andb_prop in Hwf as [Hwf Hpm]. apply andb_prop in Hwf as [Hwf Htext].
  apply andb_prop in Hwf as [Hwf Hid]. apply andb_prop in Hwf as [Hauthor Hcreated].
  apply has_hashable_getattr in Hauthor as [key Hkey].
  apply hasattr_getattr in Hid as [id Hid].
  apply hasattr_getattr in Htext as [text Htext].
  destruct (username_of_total (users !! key)) as [name Hname]; [by eauto |].
  destruct (user_followers_of_total (users !! key)) as [followers Hf]; [by eauto |].
  destruct (timestamp_of_total tweet w Hcreated) as (s & w' & Hs).
  destruct (metric_of_total tweet "retweet_count" Hpm) as [rc Hrc].
  destruct (metric_of_total tweet "like_count" Hpm) as [lc Hlc].
  exists (mk_record id name text s followers rc lc), w', (users !! key).
  cbn [r_id r_username r_text r_timestamp r_user_followers r_retweet_count
       r_like_count].
  repeat split; try done. apply author_of_inv. by exists key.
Qed.

Lemma well_formed_normalizes_all (users : gmap scalar obj) (tweets : list obj)
    (w : world) :
  forallb well_formed_tweet tweets = true →
  (∀ k u, users !! k = Some u → well_formed_user u = true) →
  ∃ rs w', normalizes_all py_str users tweets w rs w'.
Proof.
  intros Hwf Husers. revert w.
  induction tweets as [|tweet tweets IH]; intros w.
  - exists [], w. constructor.
  - cbn [forallb] in Hwf. apply andb_prop in Hwf as [Htweet Hrest].
    destruct (well_formed_normalizes users tweet w Htweet Husers) as (r & w1 & Hr).
    destruct (IH Hrest w1) as (rs & w' & Hrs).
    exists (r :: rs), w'. by econstructor.
Qed.

(** The record at a position of the result is the record of the tweet at
    that position of the response. *)
Lemma fetched_record self count w resp tweets recs w' i tweet r :
  search w (calls w) (client self) (request_of self count) = inr resp →
  data resp = Some tweets →
  get_recent_tweets py_str self count w = (inr recs, w') →
  tweets !! i = Some tweet → recs !! i = Some r →
  ∃ users wi wi',
    users_of resp = inr users ∧ normalizes py_str users tweet wi r wi'
    ∧ clock wi = clock w ∧ (ticks w ≤ ticks wi)%nat ∧ (ticks wi' ≤ ticks w')%nat.
Proof.
  intros Hsearch Hdata Hrun Htweet Hrec.
  assert (Hne : recs ≠ []) by (intros ->; done).
  destruct (get_recent_tweets_records py_str self count w resp recs w'
              Hsearch Hrun Hne) as (users & tweets' & w1 & Hdata' & Husers & Hall & ->).
  rewrite Hdata in Hdata'. injection Hdata' as <-.
  destruct (normalizes_all_lookup py_str users tweets (called w) recs w1 i tweet r
              Hall Htweet Hrec) as (wi & wi' & Hn & Hpre & Hpost).
  destruct Hpre as (_ & Hclock & _ & _ & _ & _ & Hticks).
  destruct Hpost as (_ & _ & _ & _ & _ & _ & Hticks').
  by exists users, wi, wi'.
Qed.

(** What the record of a tweet says about its author. *)
Lemma normalizes_author (resp : response) (users : gmap scalar obj) (tweet : obj)
    (wi : world) (r : NormalizedRecord) (wi' : world) :
  users_of resp = inr users →
  normalizes py_str users tweet wi r wi' →
  ∃ author_id,
    getattr tweet "author_id" = inr (FScalar author_id)
    ∧ ((∀ u, u ∈ side_table resp → getattr u "id" ≠ inr (FScalar author_id)) →
         r_username r = "Unknown User" ∧ r_user_followers r = SInt 0)
    ∧ ((∃ u, u ∈ side_table resp ∧ getattr u "id" = inr (FScalar author_id)) →
         ∃ u handle,
           u ∈ side_table resp ∧ getattr u "id" = inr (FScalar author_id)
           ∧ getattr u "username" = inr handle
           ∧ r_username r = "@" +:+ format_value py_str handle
           ∧ ∀ s, handle = FScalar (SStr s) → r_username r = "@" +:+ s).
Proof.
  intros Husers (user & Hauthor & Hname & _ & _ & _ & Hfollowers & _).
  apply author_of_inv in Hauthor as (key & Hkey & ->).
  exists key. split; [done |].
  pose proof (users_of_lookup resp users key Husers) as Hlookup.
  destruct (users !! key) as [u|].
  - destruct Hlookup as [Hin Hid]. split.
    + intros Hnone. by destruct (Hnone u Hin).
    + intros _. unfold username_of, rbind in Hname.
      destruct (getattr u "username") as [e|handle] eqn:Hhandle; [done |].
      injection Hname as Hname. exists u, handle.
      repeat split; try done. by intros s ->.
  - split.
    + intros _. unfold username_of in Hname. unfold user_followers_of in Hfollowers.
      split; congruence.
    + intros (u & Hin & Hid). by destruct (Hlookup u Hin).
Qed.

(** What the record of a tweet says about its metrics. *)
Lemma normalizes_metrics (users : gmap scalar obj) (tweet : obj)
    (wi : world) (r : NormalizedRecord) (wi' : world) :
  normalizes py_str users tweet wi r wi' →
  (hasattr tweet "public_metrics" = false →
     r_retweet_count r = SInt 0 ∧ r_like_count r = SInt 0)
  ∧ (∀ public_metrics, getattr tweet "public_metrics" = inr public_metrics →
       ∃ d, public_metrics = FDict d
            ∧ r_retweet_count r = default (SInt 0) (d !! "retweet_count")
            ∧ r_like_count r = default (SInt 0) (d !! "like_count")).
Proof.
  intros (user & _ & _ & _ & _ & _ & _ & Hrc & Hlc).
  apply metric_of_inv in Hrc, Hlc.
  unfold hasattr, getattr.
  destruct (attrs tweet !! "public_metrics") as [[s|d]|]; [done | | done].
  split; [by rewrite bool_decide_eq_true_2 by eauto |].
  intros pm [= <-]. by exists d.
Qed.

End Records.

Example sample_run :
  (get_recent_tweets plain_str sample_stream 10 sample_world).1
  = inr [orphan_record; bob_record].
Proof. vm_compute. reflexivity. Qed.

(** An exception raised inside the loop is absorbed. *)
Example textless_run :
  (get_recent_tweets plain_str sample_stream 10 textless_world).1 = inr []
  ∧ log (get_recent_tweets plain_str sample_stream 10 textless_world).2
    = [mk_log ERROR "Error fetching tweets: 'Tweet' object has no attribute 'text'"].
Proof. vm_compute. done. Qed.

(** So is one raised by the search call. *)
Example failing_run :
  (get_recent_tweets plain_str sample_stream 10 failing_world).1 = inr []
  ∧ log (get_recent_tweets plain_str sample_stream 10 failing_world).2
    = [mk_log ERROR "Error fetching tweets: 429 Too Many Requests"].
Proof. vm_compute. done. Qed.

(** The default of [getattr(user, 'public_metrics', {})] covers an
    attribute that is not there, not one that holds [None]: [None] has no
    [get], and the batch is lost. *)
Example carol_run :
  (get_recent_tweets plain_str sample_stream 10 carol_world).1 = inr []
  ∧ log (get_recent_tweets plain_str sample_stream 10 carol_world).2
    = [mk_log ERROR "Error fetching tweets: 'NoneType' object has no attribute 'get'"].
Proof. vm_compute. done. Qed.

(** Construction with nothing in the environment. *)
Example init_without_credentials :
  (__init__ default_hashtag (quiet_world [] (inr empty_response))).1
  = inl (ValueError
      "Missing required Twitter API credentials. Need either TWITTER_BEARER_TOKEN or OAuth credentials: TWITTER_BEARER_TOKEN, TWITTER_API_KEY, TWITTER_API_SECRET, TWITTER_ACCESS_TOKEN, TWITTER_ACCESS_TOKEN_SECRET").
Proof. vm_compute. reflexivity. Qed.

Example init_with_bearer_token :
  (__init__ default_hashtag sample_world).1 = inr sample_stream.
Proof. vm_compute. reflexivity. Qed.

Example strftime_sample :
  strftime (mk_datetime 2024 3 9 7 5 0) timestamp_format = "2024-03-09 07:05:00".
Proof. reflexivity. Qed.

Example interrupted_run :
  get_recent_tweets plain_str sample_stream 10 interrupted_world
  = (inl KeyboardInterrupt, called interrupted_world).
Proof. vm_compute. reflexivity. Qed.

(** A tweet whose [public_metrics] holds [None] has the attribute, and
    [None] has no [get]. *)
Example bare_run :
  (get_recent_tweets plain_str sample_stream 10 bare_world).1 = inr []
  ∧ log (get_recent_tweets plain_str sample_stream 10 bare_world).2
    = [mk_log ERROR "Error fetching tweets: 'NoneType' object has no attribute 'get'"].
Proof. vm_compute. done. Qed.

(** The year 999 prints with three digits. *)
Example strftime_year_999 :
  strftime (mk_datetime 999 1 2 3 4 5) timestamp_format = "999-01-02 03:04:05".
Proof. reflexivity. Qed.

Example seconds_text_sample :
  seconds_text (mk_datetime 2024 3 9 7 5 0) = "2024-03-09 07:05:00".
Proof. reflexivity. Qed.

(** ** What the interpreter raises is an [Exception] *)

Lemma getattr_Exception (o : obj) (name : string) (e : exn) :
  getattr o name = inl e → is_Exception e = true.
Proof. unfold getattr. destruct (attrs o !! name); [done |]. by intros [= <-]. Qed.

Lemma hash_key_Exception (f : field) (e : exn) :
  hash_key f = inl e → is_Exception e = true.
Proof. destruct f; [done |]. by intros [= <-]. Qed.

Lemma dict_get_Exception (recv : field) (key : string) (dflt : scalar) (e : exn) :
  dict_get recv key dflt = inl e → is_Exception e = true.
Proof. destruct recv; [|done]. by intros [= <-]. Qed.

Lemma call_strftime_Exception (recv : field) (fmt : string) (e : exn) :
  call_strftime recv fmt = inl e → is_Exception e = true.
Proof. destruct recv as [[| | |d]|]; try done; by intros [= <-]. Qed.

Lemma author_of_Exception (users : gmap scalar obj) (tweet : obj) (e : exn) :
  author_of users tweet = inl e → is_Exception e = true.
Proof.
  unfold author_of, rbind.
  destruct (getattr tweet "author_id") as [e'|id] eqn:Hid;
    [intros [= <-]; by eapply getattr_Exception |].
  destruct (hash_key id) as [e'|key] eqn:Hkey; [|done].
  intros [= <-]. by eapply hash_key_Exception.
Qed.

Lemma metric_of_Exception (tweet : obj) (key : string) (e : exn) :
  metric_of tweet key = inl e → is_Exception e = true.
Proof.
  unfold metric_of, rbind. destruct (hasattr tweet "public_metrics"); [|done].
  destruct (getattr tweet "public_metrics") as [e'|pm] eqn:Hpm;
    [intros [= <-]; by eapply getattr_Exception |].
  apply dict_get_Exception.
Qed.

Lemma user_followers_of_Exception (user : option obj) (e : exn) :
  user_followers_of user = inl e → is_Exception e = true.
Proof. destruct user as [u|]; [apply dict_get_Exception | done]. Qed.

Lemma users_by_id_Exception (l : list obj) (acc : gmap scalar obj) (e : exn) :
  users_by_id l acc = inl e → is_Exception e = true.
Proof.
  revert acc. induction l as [|user rest IH]; intros acc; [done |].
  change (users_by_id (user :: rest) acc)
    with (id <~ getattr user "id" ;; key <~ hash_key id ;;
          users_by_id rest (<[key := user]> acc)).
  unfold rbind.
  destruct (getattr user "id") as [e'|id] eqn:Hid;
    [intros [= <-]; by eapply getattr_Exception |].
  destruct (hash_key id) as [e'|key] eqn:Hkey;
    [intros [= <-]; by eapply hash_key_Exception | apply IH].
Qed.

Lemma users_of_Exception (r : response) (e : exn) :
  users_of r = inl e → is_Exception e = true.
Proof.
  unfold users_of. destruct (includes r !! "users"); [|done].
  apply users_by_id_Exception.
Qed.

Section Raises.

Variable py_str : field → string.

Lemma username_of_Exception (user : option obj) (e : exn) :
  username_of py_str user = inl e → is_Exception e = true.
Proof.
  destruct user as [u|]; [|done]. unfold username_of, rbind.
  destruct (getattr u "username") as [e'|h] eqn:Hh; [|done].
  intros [= <-]. by eapply getattr_Exception.
Qed.

Lemma timestamp_of_Exception (tweet : obj) (w : world) (e : exn) (w' : world) :
  timestamp_of tweet w = (inl e, w') → is_Exception e = true.
Proof.
  unfold timestamp_of, bind, lift, ret, datetime_now.
  destruct (getattr tweet "created_at") as [e'|c] eqn:Hc; cbv beta iota;
    [intros [= <- _]; by eapply getattr_Exception |].
  destruct (truthy c); cbv beta iota; [|done].
  destruct (call_strftime c timestamp_format) as [e'|s] eqn:Hs; [|done].
  intros [= <- _]. by eapply call_strftime_Exception.
Qed.

Lemma process_tweet_Exception (users : gmap scalar obj) (tweet : obj)
    (w : world) (e : exn) (w' : world) :
  process_tweet py_str users tweet w = (inl e, w') → is_Exception e = true.
Proof.
  unfold process_tweet, bind, lift, ret.
  destruct (author_of users tweet) as [?|user] eqn:H1; cbv beta iota;
    [intros [= <- _]; by eapply author_of_Exception |].
  destruct (username_of py_str user) as [?|username] eqn:H2; cbv beta iota;
    [intros [= <- _]; by eapply username_of_Exception |].
  destruct (timestamp_of tweet w) as [[?|timestamp] w1] eqn:H3; cbv beta iota;
    [intros [= <- _]; by eapply timestamp_of_Exception |].
  destruct (getattr tweet "id") as [?|id] eqn:H4; cbv beta iota;
    [intros [= <- _]; by eapply getattr_Exception |].
  destruct (getattr tweet "text") as [?|text] eqn:H5; cbv beta iota;
    [intros [= <- _]; by eapply getattr_Exception |].
  destruct (user_followers_of user) as [?|followers] eqn:H6; cbv beta iota;
    [intros [= <- _]; by eapply user_followers_of_Exception |].
  destruct (metric_of tweet "retweet_count") as [?|rc] eqn:H7; cbv beta iota;
    [intros [= <- _]; by eapply metric_of_Exception |].
  destruct (metric_of tweet "like_count") as [?|lc] eqn:H8; cbv beta iota; [|done].
  intros [= <- _]. by eapply metric_of_Exception.
Qed.

Lemma process_tweets_Exception (users : gmap scalar obj) (tweets : list obj)
    (processed : list NormalizedRecord) (w : world) (e : exn) (w' : world) :
  process_tweets py_str users tweets processed w = (inl e, w') →
  is_Exception e = true.
Proof.
  revert processed w. induction tweets as [|tweet tweets IH]; intros processed w;
    [done |].
  change (process_tweets py_str users (tweet :: tweets) processed w)
    with (match process_tweet py_str users tweet w with
          | (inr r, w1) => process_tweets py_str users tweets (processed ++ [r]) w1
          | (inl e, w1) => (inl e, w1)
          end).
  destruct (process_tweet py_str users tweet w) as [[e'|r] w1] eqn:Hstep;
    [intros [= <- _]; by eapply process_tweet_Exception | apply IH].
Qed.

(** An exception that leaves [fetch] is the one the search call raised,
    or an [Exception] raised while the response was normalized. *)
Lemma fetch_raises (self : TwitterStream) (count : Z) (w : world)
    (e : exn) (w1 : world) :
  fetch py_str self count w = (inl e, w1) →
  (search w (calls w) (client self) (request_of self count) = inl e
   ∧ w1 = called w)
  ∨ ((∃ resp, search w (calls w) (client self) (request_of self count) = inr resp)
     ∧ is_Exception e = true).
Proof.
  rewrite fetch_run.
  destruct (search w (calls w) (client self) (request_of self count)) as [e'|resp];
    [intros [= <- <-]; by left |].
  intros H. right. split; [by exists resp |].
  destruct (truthy_data (data resp)); [|done].
  destruct (users_of resp) as [e'|users] eqn:Husers;
    [injection H as <- _; by eapply users_of_Exception |].
  destruct (iter_data (data resp)) as [e'|tweets] eqn:Hiter.
  { injection H as <- _. unfold iter_data in Hiter.
    destruct (data resp); [done |]. by injection Hiter as <-. }
  destruct (process_tweets py_str users tweets [] (called w)) as [[e'|l] v] eqn:Hloop;
    [|done].
  injection H as <- _. by eapply process_tweets_Exception.
Qed.

(** When the search call raises nothing that [except Exception] lets
    through, the call returns a list. *)
Lemma get_recent_tweets_returns (self : TwitterStream) (count : Z) (w : world) :
  (∀ e, search w (calls w) (client self) (request_of self count) = inl e →
        is_Exception e = true) →
  ∃ recs w', get_recent_tweets py_str self count w = (inr recs, w').
Proof.
  intros Hsearch. rewrite get_recent_tweets_run.
  destruct (fetch py_str self count w) as [[e|l] w1] eqn:Hfetch; [|by eexists _, _].
  assert (is_Exception e = true) as ->; [|by eexists _, _].
  apply fetch_raises in Hfetch as [[He _]|[_ He]]; [by apply Hsearch | done].
Qed.

End Raises.

(** * The claims about [get_recent_tweets] and [get_stream_sample] *)

(** C1, as the code has it.  [get_recent_tweets] absorbs every failure that
    is an [Exception]: once the search call has answered, whatever the
    normalization of the response raises is an [Exception], is logged as
    an error and turns into the empty list; and an [Exception] raised by
    the search call is treated alike.  What [except Exception] does not
    catch ([KeyboardInterrupt], [SystemExit]) leaves the call as it came
    from the search call, and nothing is logged. *)
Theorem get_recent_tweets_absorbs_exceptions (py_str : field → string)
    (self : TwitterStream) (count : Z) (w : world) :
  (∀ resp, search w (calls w) (client self) (request_of self count) = inr resp →
     ∃ recs w',
       get_recent_tweets py_str self count w = (inr recs, w')
       ∧ ∀ e w1, fetch py_str self count w = (inl e, w1) →
           is_Exception e = true ∧ recs = []
           ∧ w' = add_log (mk_log ERROR ("Error fetching tweets: " +:+ exn_str e)) w1)
  ∧ (∀ e, search w (calls w) (client self) (request_of self count) = inl e →
       is_Exception e = true →
       get_recent_tweets py_str self count w
       = (inr [], add_log (mk_log ERROR ("Error fetching tweets: " +:+ exn_str e))
                          (called w)))
  ∧ (∀ e, search w (calls w) (client self) (request_of self count) = inl e →
       is_Exception e = false →
       get_recent_tweets py_str self count w = (inl e, called w)).
Proof.
  split; [|split].
  - intros resp Hsearch.
    destruct (get_recent_tweets_returns py_str self count w) as (recs & w' & Hrun);
      [by rewrite Hsearch |].
    exists recs, w'. split; [done |]. intros e w1 Hfetch.
    assert (He : is_Exception e = true).
    { apply fetch_raises in Hfetch as [[He _]|[_ He]]; [congruence | done]. }
    rewrite get_recent_tweets_run, Hfetch, He in Hrun.
    by injection Hrun as <- <-.
  - intros e Hsearch He. by rewrite get_recent_tweets_run, fetch_run, Hsearch, He.
  - intros e Hsearch He. by rewrite get_recent_tweets_run, fetch_run, Hsearch, He.
Qed.

(** C1, as stated, fails: it is not the case that [get_recent_tweets]
    returns a list whatever is raised inside it.  A [KeyboardInterrupt]
    raised by the search call reaches the caller. *)
Lemma interrupt_reaches_the_caller :
  ¬ (∀ (py_str : field → string) (self : TwitterStream) (count : Z) (w : world),
       ∃ recs w', get_recent_tweets py_str self count w = (inr recs, w')).
Proof.
  intros Hclaim.
  destruct (Hclaim plain_str sample_stream 10%Z interrupted_world)
    as (recs & w' & Hrun).
  assert (Hraised : (get_recent_tweets plain_str sample_stream 10 interrupted_world).1
                    = inl KeyboardInterrupt) by (vm_compute; reflexivity).
  rewrite Hrun in Hraised. done.
Qed.

(** C6. On a response without posts ([data] is [None] or the empty list)
    [get_recent_tweets] returns the empty list, and what it has added to
    the log is one warning and nothing else. *)
Theorem no_posts_gives_empty_list (py_str : field → string)
    (self : TwitterStream) (count : Z) (w : world) (resp : response) :
  search w (calls w) (client self) (request_of self count) = inr resp →
  data resp = None ∨ data resp = Some [] →
  ∃ w', get_recent_tweets py_str self count w = (inr [], w')
        ∧ log w' = (log w ++ [mk_log WARNING ("No tweets found matching query: "
                                              +:+ query self)])%list.
Proof.
  intros Hsearch Hdata.
  rewrite get_recent_tweets_run, fetch_run, Hsearch.
  assert (truthy_data (data resp) = false) as -> by (by destruct Hdata as [-> | ->]).
  by eexists.
Qed.

(** C7. [get_stream_sample] runs [get_recent_tweets] with a count of 5 and
    returns [None] when the list that call returns is empty, and the first
    element of that list otherwise; it does nothing of its own to an
    exception that leaves that call.  The call returns a list whenever the
    search call raises nothing but [Exception]s. *)
Theorem get_stream_sample_is_first (py_str : field → string)
    (self : TwitterStream) (w : world) :
  (∀ tweets w',
     get_recent_tweets py_str self 5 w = (inr tweets, w') →
     get_stream_sample py_str self w
     = (inr match tweets with
            | [] => None
            | first :: _ => Some first
            end, w'))
  ∧ (∀ e w',
       get_recent_tweets py_str self 5 w = (inl e, w') →
       get_stream_sample py_str self w = (inl e, w'))
  ∧ ((∀ e, search w (calls w) (client self) (request_of self 5) = inl e →
           is_Exception e = true) →
     ∃ tweets w',
       get_recent_tweets py_str self 5 w = (inr tweets, w')
       ∧ get_stream_sample py_str self w
         = (inr match tweets with
                | [] => None
                | first :: _ => Some first
                end, w')).
Proof.
  assert (Hlist : ∀ tweets w',
            get_recent_tweets py_str self 5 w = (inr tweets, w') →
            get_stream_sample py_str self w
            = (inr match tweets with
                   | [] => None
                   | first :: _ => Some first
                   end, w')).
  { intros tweets w' Hrun. unfold get_stream_sample, bind. rewrite Hrun.
    by destruct tweets. }
  split; [done |]. split.
  - intros e w' Hrun. unfold get_stream_sample, bind. by rewrite Hrun.
  - intros Hsearch.
    destruct (get_recent_tweets_returns py_str self 5 w Hsearch)
      as (tweets & w' & Hrun).
    exists tweets, w'. split; [done | by apply Hlist].
Qed.

(** C4. In the record of a post whose [author_id] matches no author of
    the side-table, [username] is "Unknown User" and [user_followers] is 0;
    when the side-table has an author with that id, [username] is "@"
    followed by the [username] of such an author. *)
Theorem author_fields (py_str : field → string) (self : TwitterStream) (count : Z)
    (w : world) (resp : response) (tweets : list obj)
    (recs : list NormalizedRecord) (w' : world)
    (i : nat) (tweet : obj) (r : NormalizedRecord) :
  search w (calls w) (client self) (request_of self count) = inr resp →
  data resp = Some tweets →
  get_recent_tweets py_str self count w = (inr recs, w') →
  tweets !! i = Some tweet →
  recs !! i = Some r →
  ∃ author_id,
    getattr tweet "author_id" = inr (FScalar author_id)
    ∧ ((∀ u, u ∈ side_table resp → getattr u "id" ≠ inr (FScalar author_id)) →
         r_username r = "Unknown User" ∧ r_user_followers r = SInt 0)
    ∧ ((∃ u, u ∈ side_table resp ∧ getattr u "id" = inr (FScalar author_id)) →
         ∃ u handle,
           u ∈ side_table resp ∧ getattr u "id" = inr (FScalar author_id)
           ∧ getattr u "username" = inr handle
           ∧ r_username r = "@" +:+ format_value py_str handle
           ∧ ∀ s, handle = FScalar (SStr s) → r_username r = "@" +:+ s).
Proof.
  intros Hsearch Hdata Hrun Htweet Hrec.
  destruct (fetched_record py_str self count w resp tweets recs w' i tweet r
              Hsearch Hdata Hrun Htweet Hrec)
    as (users & wi & wi' & Husers & Hn & _).
  by eapply normalizes_author.
Qed.

(** C5, where the code departs from it.  A post whose [public_metrics]
    attribute is there and holds [None] lacks its metrics, and lines 117
    and 118 mean to give it the count 0; but [hasattr] is true of it,
    [None] has no [get], and the whole batch is lost: the call returns the
    empty list and logs the [AttributeError]. *)
Theorem none_metrics_lose_the_batch :
  search bare_world (calls bare_world) (client sample_stream)
         (request_of sample_stream 10) = inr bare_response
  ∧ data bare_response = Some [bare_tweet]
  ∧ hasattr bare_tweet "public_metrics" = true
  ∧ getattr bare_tweet "public_metrics" = inr (FScalar SNone)
  ∧ metric_of bare_tweet "retweet_count"
    = inl (AttributeError "'NoneType' object has no attribute 'get'")
  ∧ get_recent_tweets plain_str sample_stream 10 bare_world
    = (inr [], add_log (mk_log ERROR
                 "Error fetching tweets: 'NoneType' object has no attribute 'get'")
                 (tick (called bare_world))).
Proof. repeat split; vm_compute; reflexivity. Qed.

(** X18. In the record of a post without a [public_metrics] attribute,
    [retweet_count] and [like_count] are 0; when the attribute is there
    and a record results, it holds a mapping, and the two counts are what
    the mapping holds under these keys, and 0 for a key it does not
    hold. *)
Theorem metrics_fields (py_str : field → string) (self : TwitterStream) (count : Z)
    (w : world) (resp : response) (tweets : list obj)
    (recs : list NormalizedRecord) (w' : world)
    (i : nat) (tweet : obj) (r : NormalizedRecord) :
  search w (calls w) (client self) (request_of self count) = inr resp →
  data resp = Some tweets →
  get_recent_tweets py_str self count w = (inr recs, w') →
  tweets !! i = Some tweet →
  recs !! i = Some r →
  (hasattr tweet "public_metrics" = false →
     r_retweet_count r = SInt 0 ∧ r_like_count r = SInt 0)
  ∧ (∀ public_metrics, getattr tweet "public_metrics" = inr public_metrics →
       ∃ d, public_metrics = FDict d
            ∧ r_retweet_count r = default (SInt 0) (d !! "retweet_count")
            ∧ r_like_count r = default (SInt 0) (d !! "like_count")).
Proof.
  intros Hsearch Hdata Hrun Htweet Hrec.
  destruct (fetched_record py_str self count w resp tweets recs w' i tweet r
              Hsearch Hdata Hrun Htweet Hrec)
    as (users & wi & wi' & _ & Hn & _).
  by eapply normalizes_metrics.
Qed.

(** C8. With a clock that gives valid times of four-digit years: in the
    record of a post whose [created_at] is [None] (or falsy in another
    way), [timestamp] is a reading of the clock taken during the call,
    formatted with "%Y-%m-%d %H:%M:%S": the nineteen characters
    YYYY-MM-DD HH:MM:SS of that reading, a non-empty string of the shape
    dddd-dd-dd dd:dd:dd.  When [created_at] is a valid [datetime],
    [timestamp] is that value formatted with the same pattern, the
    nineteen characters of that value when its year has four digits. *)
Theorem timestamp_field (py_str : field → string) (self : TwitterStream) (count : Z)
    (w : world) (resp : response) (tweets : list obj)
    (recs : list NormalizedRecord) (w' : world) :
  (∀ n, valid_datetime (clock w n) ∧ four_digit_year (clock w n)) →
  search w (calls w) (client self) (request_of self count) = inr resp →
  data resp = Some tweets →
  get_recent_tweets py_str self count w = (inr recs, w') →
  ∀ i tweet r, tweets !! i = Some tweet → recs !! i = Some r →
    (∀ created_at,
       getattr tweet "created_at" = inr created_at → truthy created_at = false →
       ∃ k, (ticks w ≤ k < ticks w')%nat
            ∧ r_timestamp r = strftime (clock w k) timestamp_format
            ∧ r_timestamp r = seconds_text (clock w k)
            ∧ r_timestamp r ≠ ""
            ∧ matches_timestamp_pattern (r_timestamp r) = true)
    ∧ (∀ d, getattr tweet "created_at" = inr (FScalar (STime d)) →
         valid_datetime d →
         r_timestamp r = strftime d timestamp_format
         ∧ (four_digit_year d → r_timestamp r = seconds_text d)).
Proof.
  intros Hclock Hsearch Hdata Hrun i tweet r Htweet Hrec.
  destruct (fetched_record py_str self count w resp tweets recs w' i tweet r
              Hsearch Hdata Hrun Htweet Hrec)
    as (users & wi & wi' & _ & Hn & Hsame & Hlo & Hhi).
  destruct Hn as (user & _ & _ & Hstamp & _).
  apply timestamp_of_inv in Hstamp as (c & Hc & Hstamp).
  split.
  - intros c' Hc' Hfalsy. rewrite Hc in Hc'. injection Hc' as <-.
    rewrite Hfalsy in Hstamp. destruct Hstamp as (-> & ->).
    destruct (Hclock (ticks wi)) as [Hvalid Hyear].
    exists (ticks wi). rewrite Hsame. simpl in Hhi.
    split; [lia |]. split; [done |].
    split; [by apply strftime_seconds_text |].
    split; [apply strftime_nonempty | by apply strftime_matches_pattern].
  - intros d Hd Hvalid. rewrite Hc in Hd. injection Hd as ->.
    destruct Hstamp as (d' & [= <-] & -> & _).
    split; [done |]. intros Hyear. by apply strftime_seconds_text.
Qed.

(** * The theorems at concrete inputs *)

(** C9 with TWITTER_BEARER_TOKEN set to the empty string and an incomplete OAuth set. *)
Lemma empty_credential_is_missing_witness :
  _validate_credentials (read_credentials empty_string_world)
  = _validate_credentials
      (read_credentials (unset "TWITTER_BEARER_TOKEN" empty_string_world))
  ∧ (∀ e, (__init__ default_hashtag empty_string_world).1 = inl e
          ↔ (__init__ default_hashtag
               (unset "TWITTER_BEARER_TOKEN" empty_string_world)).1 = inl e)
  ∧ (_validate_credentials (read_credentials empty_string_world) ≠ inr () →
       "TWITTER_BEARER_TOKEN" ∈ missing_credentials (read_credentials empty_string_world)
       ∧ ∃ msg, _validate_credentials (read_credentials empty_string_world)
                = inl (ValueError msg)
                ∧ occurs_in "TWITTER_BEARER_TOKEN" msg).
Proof.
  apply (empty_credential_is_missing default_hashtag "TWITTER_BEARER_TOKEN"
           empty_string_world).
  - apply list_elem_of_here.
  - vm_compute. reflexivity.
Defined.

(** C10 at the credentials of an empty environment. *)
Lemma missing_names_include_bearer_token_witness :
  "TWITTER_BEARER_TOKEN" ∈ missing_credentials no_credentials
  ∧ ValueError (credentials_message
                +:+ String.concat ", " (missing_credentials no_credentials))
    = ValueError (credentials_message
                  +:+ String.concat ", " (missing_credentials no_credentials))
  ∧ (∃ rest,
       ValueError (credentials_message
                   +:+ String.concat ", " (missing_credentials no_credentials))
       = ValueError (credentials_message +:+ "TWITTER_BEARER_TOKEN" +:+ rest))
  ∧ ∀ tag w, read_credentials w = no_credentials →
      __init__ tag w
      = (inl (ValueError (credentials_message
                          +:+ String.concat ", " (missing_credentials no_credentials))),
         w).
Proof.
  apply (missing_names_include_bearer_token no_credentials).
  vm_compute. reflexivity.
Defined.

(** C6 at a response whose [data] is [None]. *)
Lemma no_posts_gives_empty_list_witness :
  ∃ w', get_recent_tweets plain_str sample_stream 10 empty_string_world = (inr [], w')
        ∧ log w' = (log empty_string_world
                    ++ [mk_log WARNING ("No tweets found matching query: "
                                        +:+ query sample_stream)])%list.
Proof.
  apply (no_posts_gives_empty_list plain_str sample_stream 10 empty_string_world
           empty_response).
  - vm_compute. reflexivity.
  - left. reflexivity.
Defined.

(** C4 at the first tweet of the sample response. *)
Lemma author_fields_witness :
  ∃ author_id,
    getattr orphan_tweet "author_id" = inr (FScalar author_id)
    ∧ ((∀ u, u ∈ side_table sample_response →
             getattr u "id" ≠ inr (FScalar author_id)) →
         r_username orphan_record = "Unknown User"
         ∧ r_user_followers orphan_record = SInt 0)
    ∧ ((∃ u, u ∈ side_table sample_response
             ∧ getattr u "id" = inr (FScalar author_id)) →
         ∃ u handle,
           u ∈ side_table sample_response
           ∧ getattr u "id" = inr (FScalar author_id)
           ∧ getattr u "username" = inr handle
           ∧ r_username orphan_record = "@" +:+ format_value plain_str handle
           ∧ ∀ s, handle = FScalar (SStr s) → r_username orphan_record = "@" +:+ s).
Proof.
  apply (author_fields plain_str sample_stream 10 sample_world sample_response
           [orphan_tweet; bob_tweet] [orphan_record; bob_record]
           sample_final_world 0 orphan_tweet orphan_record).
  - vm_compute. reflexivity.
  - reflexivity.
  - vm_compute. reflexivity.
  - reflexivity.
  - reflexivity.
Defined.

(** X18 at the first tweet of the sample response. *)
Lemma metrics_fields_witness :
  (hasattr orphan_tweet "public_metrics" = false →
     r_retweet_count orphan_record = SInt 0 ∧ r_like_count orphan_record = SInt 0)
  ∧ (∀ public_metrics, getattr orphan_tweet "public_metrics" = inr public_metrics →
       ∃ d, public_metrics = FDict d
            ∧ r_retweet_count orphan_record = default (SInt 0) (d !! "retweet_count")
            ∧ r_like_count orphan_record = default (SInt 0) (d !! "like_count")).
Proof.
  apply (metrics_fields plain_str sample_stream 10 sample_world sample_response
           [orphan_tweet; bob_tweet] [orphan_record; bob_record]
           sample_final_world 0 orphan_tweet orphan_record).
  - vm_compute. reflexivity.
  - reflexivity.
  - vm_compute. reflexivity.
  - reflexivity.
  - reflexivity.
Defined.

(** C8 at the two tweets of the sample response: the first has no creation
    time, the second has one. *)
Lemma timestamp_field_witness :
  (∃ k, (ticks sample_world ≤ k < ticks sample_final_world)%nat
        ∧ r_timestamp orphan_record = seconds_text (clock sample_world k))
  ∧ r_timestamp bob_record = seconds_text (mk_datetime 2024 3 9 7 5 0).
Proof.
  pose proof (timestamp_field plain_str sample_stream 10 sample_world sample_response
                [orphan_tweet; bob_tweet] [orphan_record; bob_record]
                sample_final_world) as H.
  assert (Hclock : ∀ n, valid_datetime (clock sample_world n)
                        ∧ four_digit_year (clock sample_world n)).
  { intros n. unfold valid_datetime, four_digit_year. simpl.
    pose proof (Nat.mod_upper_bound n 60). lia. }
  specialize (H Hclock eq_refl eq_refl eq_refl).
  split.
  - destruct (H 0%nat orphan_tweet orphan_record eq_refl eq_refl) as [Hnone _].
    destruct (Hnone (FScalar SNone) eq_refl eq_refl) as (k & Hk & _ & Htext & _).
    by exists k.
  - destruct (H 1%nat bob_tweet bob_record eq_refl eq_refl) as [_ Htime].
    apply (Htime (mk_datetime 2024 3 9 7 5 0) eq_refl).
    + unfold valid_datetime. simpl. lia.
    + unfold four_digit_year. simpl. lia.
Defined.

(** * Further properties of the class *)

(** ** Construction *)

Lemma is_set_Some (s : string) : s ≠ "" → is_set (Some s) = true.
Proof. intros Hs. unfold is_set. by apply negb_true_iff, String.eqb_neq. Qed.

(** X1. With a non-empty bearer token in the environment, construction
    authenticates with the bearer token alone, whatever the OAuth values
    are: the client is built from the token and nothing else, the query is
    the hashtag followed by " -is:retweet", and the log receives the two
    INFO records of lines 59 and 32. *)
Theorem init_prefers_bearer_token (tag token : string) (w : world) :
  environ w !! "TWITTER_BEARER_TOKEN" = Some token →
  token ≠ "" →
  new_client w (mk_Client (Some token) None None None None) = None →
  __init__ tag w
  = (inr (mk_TwitterStream (read_credentials w)
            (mk_Client (Some token) None None None None)
            tag (tag +:+ " -is:retweet")),
     add_log (mk_log INFO ("TwitterStream initialized for hashtag: " +:+ tag))
       (add_log (mk_log INFO "Twitter API v2 client initialized with Bearer Token") w)).
Proof.
  intros Htoken Hne Hnew.
  assert (Hset : is_set (bearer_token (read_credentials w)) = true)
    by (cbn [read_credentials bearer_token]; rewrite Htoken; by apply is_set_Some).
  assert (Hargs : client_arguments (read_credentials w)
                  = mk_Client (Some token) None None None None).
  { unfold client_arguments. rewrite Hset.
    cbn [read_credentials bearer_token]. by rewrite Htoken. }
  rewrite init_run, validate_credentials_cases, initialize_client_run.
  unfold credentials_complete. rewrite Hset, Hargs, Hnew. reflexivity.
Qed.

(** X2. Without a bearer token (unset or empty) and with the four OAuth
    values set, construction authenticates with OAuth 1.0a: the client is
    built from the four values and no bearer token, and the log says so. *)
Theorem init_falls_back_to_oauth (tag : string) (w : world) :
  is_set (environ w !! "TWITTER_BEARER_TOKEN") = false →
  is_set (environ w !! "TWITTER_API_KEY") = true →
  is_set (environ w !! "TWITTER_API_SECRET") = true →
  is_set (environ w !! "TWITTER_ACCESS_TOKEN") = true →
  is_set (environ w !! "TWITTER_ACCESS_TOKEN_SECRET") = true →
  new_client w (mk_Client None (environ w !! "TWITTER_API_KEY")
                          (environ w !! "TWITTER_API_SECRET")
                          (environ w !! "TWITTER_ACCESS_TOKEN")
                          (environ w !! "TWITTER_ACCESS_TOKEN_SECRET")) = None →
  __init__ tag w
  = (inr (mk_TwitterStream (read_credentials w)
            (mk_Client None (environ w !! "TWITTER_API_KEY")
                       (environ w !! "TWITTER_API_SECRET")
                       (environ w !! "TWITTER_ACCESS_TOKEN")
                       (environ w !! "TWITTER_ACCESS_TOKEN_SECRET"))
            tag (tag +:+ " -is:retweet")),
     add_log (mk_log INFO ("TwitterStream initialized for hashtag: " +:+ tag))
       (add_log (mk_log INFO "Twitter API v2 client initialized with OAuth 1.0a") w)).
Proof.
  intros Hb Hk Hs Ht Hts Hnew.
  rewrite init_run, validate_credentials_cases, initialize_client_run.
  unfold credentials_complete, client_arguments.
  cbn [read_credentials bearer_token api_key api_secret access_token
       access_token_secret].
  rewrite Hb, Hk, Hs, Ht, Hts. cbn [orb andb]. rewrite Hnew. reflexivity.
Qed.

(** X3. When the credentials pass validation and [tweepy.Client] raises,
    construction raises that same exception and no [TwitterStream]
    results.  An [Exception] is logged once as an error before it is
    raised again; an exception that [except Exception] does not catch
    passes through and nothing is logged. *)
Theorem init_reraises_client_error (tag : string) (w : world) (e : exn) :
  _validate_credentials (read_credentials w) = inr () →
  new_client w (client_arguments (read_credentials w)) = Some e →
  __init__ tag w
  = (inl e,
     if is_Exception e
     then add_log (mk_log ERROR ("Error initializing Twitter v2 client: "
                                 +:+ exn_str e)) w
     else w).
Proof.
  intros Hvalid Hnew.
  by rewrite init_run, Hvalid, initialize_client_run, Hnew.
Qed.

(** X4. Construction touches nothing of the world but the log, to which
    it only appends: it changes no environment variable, reads no clock and
    sends no search. *)
Theorem init_only_logs (tag : string) (w : world) :
  only_logged w (__init__ tag w).2.
Proof.
  rewrite init_run, initialize_client_run. unfold only_logged.
  destruct (_validate_credentials (read_credentials w)) as [e|[]].
  - cbn [snd]. repeat split. exists []. by rewrite app_nil_r.
  - destruct (new_client w _) as [e|]; [destruct (is_Exception e) |];
      cbn [snd add_log environ clock ticks new_client search calls log];
      repeat split; eauto.
    + exists []. by rewrite app_nil_r.
    + eexists. by rewrite <- app_assoc.
Qed.

(** X5. Construction reads the five credential variables and no other:
    setting any other variable of the environment changes neither the
    fetcher that results nor the exception raised. *)
Theorem init_reads_five_variables (tag name v : string) (w : world) :
  name ∉ credential_names →
  (__init__ tag (setenv name v w)).1 = (__init__ tag w).1.
Proof.
  intros Hname. unfold credential_names in Hname.
  repeat (apply not_elem_of_cons in Hname as [? Hname]).
  assert (Hread : read_credentials (setenv name v w) = read_credentials w).
  { unfold read_credentials, setenv. cbn [environ].
    by rewrite !lookup_insert_ne by done. }
  rewrite !init_run, !initialize_client_run, Hread.
  destruct (_validate_credentials (read_credentials w)) as [e|[]]; [done |].
  cbn [new_client setenv].
  destruct (new_client w _) as [e|]; [by destruct (is_Exception e) | done].
Qed.

(** X6. The missing names of the error message are the five variable
    names filtered by "not set": each missing name appears once, and the
    names come in the fixed order bearer token, key, secret, access token,
    access token secret. *)
Theorem missing_credentials_is_filter (c : credentials) :
  missing_credentials c
  = map fst (List.filter (λ p, negb (is_set p.2)) (credential_variables c)).
Proof.
  unfold missing_credentials, append_if_missing, credential_variables.
  cbn [List.filter snd].
  by destruct (is_set (bearer_token c)), (is_set (api_key c)),
    (is_set (api_secret c)), (is_set (access_token c)),
    (is_set (access_token_secret c)).
Qed.

(** ** What a fetch does to the world *)

Section FetchFrame.

Variable py_str : field → string.

Lemma timestamp_of_frame (tweet : obj) (w : world) :
  same_but_ticks w (timestamp_of tweet w).2.
Proof.
  unfold timestamp_of, bind, lift, ret, datetime_now.
  destruct (getattr tweet "created_at") as [e|c]; cbv beta iota;
    [apply same_but_ticks_refl |].
  destruct (truthy c); cbv beta iota.
  - destruct (call_strftime c timestamp_format); apply same_but_ticks_refl.
  - repeat split; cbn [snd environ clock ticks new_client search calls log]; lia.
Qed.

Lemma process_tweet_frame (users : gmap scalar obj) (tweet : obj) (w : world) :
  same_but_ticks w (process_tweet py_str users tweet w).2.
Proof.
  pose proof (timestamp_of_frame tweet w) as Hstamp.
  unfold process_tweet, bind, lift, ret.
  destruct (author_of users tweet) as [?|user]; cbv beta iota;
    [apply same_but_ticks_refl |].
  destruct (username_of py_str user) as [?|username]; cbv beta iota;
    [apply same_but_ticks_refl |].
  destruct (timestamp_of tweet w) as [[?|timestamp] w1]; cbv beta iota; [done |].
  destruct (getattr tweet "id") as [?|id]; cbv beta iota; [done |].
  destruct (getattr tweet "text") as [?|text]; cbv beta iota; [done |].
  destruct (user_followers_of user) as [?|followers]; cbv beta iota; [done |].
  destruct (metric_of tweet "retweet_count") as [?|rc]; cbv beta iota; [done |].
  by destruct (metric_of tweet "like_count") as [?|lc].
Qed.

Lemma process_tweets_frame (users : gmap scalar obj) (tweets : list obj)
    (processed : list NormalizedRecord) (w : world) :
  same_but_ticks w (process_tweets py_str users tweets processed w).2.
Proof.
  revert processed w. induction tweets as [|tweet tweets IH]; intros processed w.
  - apply same_but_ticks_refl.
  - change (process_tweets py_str users (tweet :: tweets) processed w)
      with (match process_tweet py_str users tweet w with
            | (inr r, w1) => process_tweets py_str users tweets (processed ++ [r]) w1
            | (inl e, w1) => (inl e, w1)
            end).
    pose proof (process_tweet_frame users tweet w) as Hstep.
    destruct (process_tweet py_str users tweet w) as [[e|r] w1]; [done |].
    eapply same_but_ticks_trans; [exact Hstep | apply IH].
Qed.

(** The world [fetch] leaves: one more call, and one record added to the
    log on the two paths that end normally, none when it raises. *)
Lemma fetch_frame (self : TwitterStream) (count : Z) (w : world) :
  after_one_call w (fetch py_str self count w).2
  ∧ match (fetch py_str self count w).1 with
    | inl _ => log (fetch py_str self count w).2 = log w
    | inr [] =>
        log (fetch py_str self count w).2
        = (log w ++ [mk_log WARNING ("No tweets found matching query: "
                                     +:+ query self)])%list
    | inr recs =>
        log (fetch py_str self count w).2
        = (log w ++ [mk_log INFO ("Fetched " +:+ pretty (length recs)
                       +:+ " tweets with hashtag " +:+ hashtag self)])%list
    end.
Proof.
  assert (Hcalled : after_one_call w (called w)) by (by repeat split).
  rewrite fetch_run.
  destruct (search w (calls w) (client self) (request_of self count)) as [e|resp];
    [done |].
  destruct (data resp) as [[|tweet tweets]|]; cbn [truthy_data]; [done | | done].
  destruct (users_of resp) as [e|users]; [done |].
  cbn [iter_data].
  pose proof (process_tweets_frame users (tweet :: tweets) [] (called w)) as Hframe.
  destruct (process_tweets py_str users (tweet :: tweets) [] (called w))
    as [[e|recs] w1] eqn:Hloop; cbn [fst snd] in *;
    destruct Hframe as (He & Hc & Hn & Hs & Hcalls & Hlog & Hticks).
  - split; [|by rewrite Hlog]. by repeat split; rewrite ?He, ?Hc, ?Hn, ?Hs, ?Hcalls.
  - split.
    + by repeat split; cbn [add_log environ clock ticks new_client search calls];
        rewrite ?He, ?Hc, ?Hn, ?Hs, ?Hcalls.
    + apply process_tweets_normalizes_all in Hloop as (rs & -> & Hall).
      apply normalizes_all_length in Hall.
      destruct rs as [|r rs]; [done |].
      cbn [add_log log app]. by rewrite Hlog.
Qed.

(** [fetch] returns the empty list only for a response without posts. *)
Lemma fetch_empty (self : TwitterStream) (count : Z) (w : world) :
  (fetch py_str self count w).1 = inr [] →
  ∃ resp, search w (calls w) (client self) (request_of self count) = inr resp
          ∧ (data resp = None ∨ data resp = Some []).
Proof.
  rewrite fetch_run.
  destruct (search w (calls w) (client self) (request_of self count)) as [e|resp];
    [done |].
  intros H. exists resp. split; [done |].
  destruct (data resp) as [[|tweet tweets]|]; [by right | | by left].
  cbn [truthy_data] in H.
  destruct (users_of resp) as [e|users]; [done |]. cbn [iter_data] in H.
  destruct (process_tweets py_str users (tweet :: tweets) [] (called w))
    as [[e|recs] w1] eqn:Hloop; [done |].
  cbn [fst] in H. injection H as ->.
  apply process_tweets_normalizes_all in Hloop as (rs & Hrs & Hall).
  apply normalizes_all_length in Hall. by destruct rs.
Qed.

End FetchFrame.

(** X7. Every call of [get_recent_tweets], whatever its outcome, sends
    exactly one search (no retry) and leaves the environment, the clock
    and the client as they were; the clock's counter does not go back. *)
Theorem get_recent_tweets_calls_once (py_str : field → string)
    (self : TwitterStream) (count : Z) (w : world) :
  after_one_call w (get_recent_tweets py_str self count w).2.
Proof.
  rewrite get_recent_tweets_run.
  destruct (fetch_frame py_str self count w) as [Hframe _].
  destruct (fetch py_str self count w) as [[e|recs] w1]; [|done].
  cbn [snd] in *. by destruct (is_Exception e).
Qed.

(** X8. A call of [get_recent_tweets] that returns has added exactly one
    record to the log, and the level of that record tells the three
    outcomes apart that the returned list does not: INFO with the number
    of records when the list is not empty, WARNING when the response had
    no posts, ERROR with the text of the exception when an [Exception] was
    raised.  The call returns unless the search call raises what
    [except Exception] does not catch; then that exception reaches the
    caller and the log is as it was. *)
Theorem get_recent_tweets_logs_once (py_str : field → string)
    (self : TwitterStream) (count : Z) (w : world) :
  (∀ recs w',
     get_recent_tweets py_str self count w = (inr recs, w') →
     ∃ rec,
       log w' = (log w ++ [rec])%list
       ∧ match levelname rec with
         | INFO =>
             recs ≠ []
             ∧ message rec = "Fetched " +:+ pretty (length recs)
                             +:+ " tweets with hashtag " +:+ hashtag self
         | WARNING =>
             recs = []
             ∧ (∃ resp, search w (calls w) (client self) (request_of self count)
                        = inr resp
                        ∧ (data resp = None ∨ data resp = Some []))
             ∧ message rec = "No tweets found matching query: " +:+ query self
         | ERROR =>
             recs = []
             ∧ ∃ e, (fetch py_str self count w).1 = inl e
                    ∧ is_Exception e = true
                    ∧ message rec = "Error fetching tweets: " +:+ exn_str e
         end)
  ∧ (∀ e w',
       get_recent_tweets py_str self count w = (inl e, w') →
       search w (calls w) (client self) (request_of self count) = inl e
       ∧ is_Exception e = false
       ∧ log w' = log w)
  ∧ ((∀ e, search w (calls w) (client self) (request_of self count) = inl e →
           is_Exception e = true) →
     ∃ recs w', get_recent_tweets py_str self count w = (inr recs, w')).
Proof.
  split; [|split].
  - intros recs w'. rewrite get_recent_tweets_run.
    destruct (fetch_frame py_str self count w) as [_ Hlog].
    pose proof (fetch_empty py_str self count w) as Hempty.
    destruct (fetch py_str self count w) as [[e|l] w1]; cbn [fst snd] in *.
    + destruct (is_Exception e) eqn:He; [|done]. intros [= <- <-].
      eexists. cbn [add_log log]. rewrite Hlog. split; [done |].
      cbn [levelname message]. split; [done |]. by exists e.
    + intros [= <- <-]. destruct l as [|r l]; eexists; (split; [exact Hlog |]);
        cbn [levelname message]; repeat split; try done. by apply Hempty.
  - intros e w' Hrun. rewrite get_recent_tweets_run in Hrun.
    destruct (fetch_frame py_str self count w) as [_ Hlog].
    destruct (fetch py_str self count w) as [[e'|l] w1] eqn:Hfetch; [|done].
    cbn [fst snd] in Hlog.
    destruct (is_Exception e') eqn:He; [done |]. injection Hrun as <- <-.
    apply fetch_raises in Hfetch as [[Hsearch _]|[_ He']]; [done | congruence].
  - apply get_recent_tweets_returns.
Qed.

(** ** What the records of a fetch tell about the response *)

Lemma getattr_inr (o : obj) (name : string) (v : field) :
  getattr o name = inr v ↔ attrs o !! name = Some v.
Proof.
  unfold getattr. destruct (attrs o !! name) as [v'|]; split; congruence.
Qed.

Lemma users_by_id_hashable (l : list obj) (acc m : gmap scalar obj) :
  users_by_id l acc = inr m →
  forallb (λ u, has_hashable u "id") l = true.
Proof.
  revert acc. induction l as [|user rest IH]; intros acc; [done |].
  change (users_by_id (user :: rest) acc)
    with (id <~ getattr user "id" ;; key <~ hash_key id ;;
          users_by_id rest (<[key := user]> acc)).
  unfold rbind.
  destruct (getattr user "id") as [e|[key|d]] eqn:Hid; [done | | done].
  unfold hash_key. intros Hrest. cbn [forallb].
  apply getattr_inr in Hid. unfold has_hashable at 1. rewrite Hid.
  by apply (IH _ Hrest).
Qed.

Lemma users_of_hashable (r : response) (users : gmap scalar obj) :
  users_of r = inr users →
  forallb (λ u, has_hashable u "id") (side_table r) = true.
Proof.
  unfold users_of, side_table.
  destruct (includes r !! "users") as [l|]; [|done].
  apply users_by_id_hashable.
Qed.

(** With several authors of the same id in the list, the table holds the
    last one. *)
Lemma users_by_id_last (l1 l2 : list obj) (u : obj) (acc m : gmap scalar obj)
    (k : scalar) :
  users_by_id (l1 ++ u :: l2) acc = inr m →
  getattr u "id" = inr (FScalar k) →
  (∀ v, v ∈ l2 → getattr v "id" ≠ inr (FScalar k)) →
  m !! k = Some u.
Proof.
  revert acc. induction l1 as [|x l1 IH]; intros acc Hrun Hid Hlater.
  - change (users_by_id ([] ++ u :: l2) acc)
      with (id <~ getattr u "id" ;; key <~ hash_key id ;;
            users_by_id l2 (<[key := u]> acc)) in Hrun.
    rewrite Hid in Hrun. unfold rbind, hash_key in Hrun.
    pose proof (users_by_id_lookup l2 _ m k Hrun) as Hk.
    destruct (m !! k) as [u'|].
    + destruct Hk as [[Hin Hid']|Hk]; [by destruct (Hlater u' Hin) |].
      by rewrite lookup_insert_eq in Hk.
    + destruct Hk as [Hk _]. by rewrite lookup_insert_eq in Hk.
  - change (users_by_id ((x :: l1) ++ u :: l2) acc)
      with (id <~ getattr x "id" ;; key <~ hash_key id ;;
            users_by_id (l1 ++ u :: l2) (<[key := x]> acc)) in Hrun.
    unfold rbind in Hrun.
    destruct (getattr x "id") as [e|[key|d]]; [done | | done].
    unfold hash_key in Hrun. by eapply IH.
Qed.

Section RecordFacts.

Variable py_str : field → string.

Lemma normalizes_well_formed (users : gmap scalar obj) (tweet : obj)
    (w : world) (r : NormalizedRecord) (w' : world) :
  normalizes py_str users tweet w r w' → well_formed_tweet tweet = true.
Proof.
  intros (user & Hauthor & _ & Hstamp & Hid & Htext & _ & Hrc & _).
  apply author_of_inv in Hauthor as (key & Hkey%getattr_inr & _).
  apply timestamp_of_inv in Hstamp as (c & Hc%getattr_inr & Hstamp).
  apply getattr_inr in Hid, Htext. apply metric_of_inv in Hrc.
  unfold well_formed_tweet, has_hashable, datetime_or_falsy, hasattr,
    mapping_or_absent.
  rewrite Hkey, Hc, Hid, Htext.
  rewrite !bool_decide_eq_true_2 by eauto.
  destruct (attrs tweet !! "public_metrics") as [[s|d]|]; [done | |];
    (destruct (truthy c) eqn:Ht; [by destruct Hstamp as (d' & -> & _) |];
     destruct c as [[| | |d']|]; by rewrite ?Ht).
Qed.

Lemma normalizes_all_well_formed (users : gmap scalar obj) (tweets : list obj)
    (w : world) (rs : list NormalizedRecord) (w' : world) :
  normalizes_all py_str users tweets w rs w' →
  forallb well_formed_tweet tweets = true.
Proof.
  induction 1 as [|tweet tweets w r w1 rs w' Hstep _ IH]; [done |].
  cbn [forallb]. by rewrite (normalizes_well_formed _ _ _ _ _ Hstep), IH.
Qed.

Lemma normalizes_all_id_text (users : gmap scalar obj) (tweets : list obj)
    (w : world) (rs : list NormalizedRecord) (w' : world) :
  normalizes_all py_str users tweets w rs w' →
  Forall2 (λ tweet r, getattr tweet "id" = inr (r_id r)
                      ∧ getattr tweet "text" = inr (r_text r)) tweets rs.
Proof.
  induction 1 as [|tweet tweets w r w1 rs w' Hstep _ IH]; constructor; [|done].
  by destruct Hstep as (user & _ & _ & _ & Hid & Htext & _).
Qed.

Lemma normalizes_ticks (users : gmap scalar obj) (tweet : obj)
    (w : world) (r : NormalizedRecord) (w' : world) :
  normalizes py_str users tweet w r w' →
  ticks w' = (ticks w + clock_readings [tweet])%nat
  ∧ (lacks_creation_time tweet = true →
     r_timestamp r = strftime (clock w (ticks w)) timestamp_format).
Proof.
  intros (user & _ & _ & Hstamp & _).
  apply timestamp_of_inv in Hstamp as (c & Hc%getattr_inr & Hstamp).
  unfold clock_readings, lacks_creation_time. cbn [List.filter].
  rewrite Hc. destruct (truthy c); cbn [negb length].
  - destruct Hstamp as (d & _ & _ & ->). split; [lia | done].
  - destruct Hstamp as (-> & ->). split; [cbn [tick ticks]; lia | done].
Qed.

Lemma clock_readings_cons (tweet : obj) (tweets : list obj) :
  clock_readings (tweet :: tweets)
  = (clock_readings [tweet] + clock_readings tweets)%nat.
Proof.
  unfold clock_readings. cbn [List.filter].
  by destruct (lacks_creation_time tweet).
Qed.

(** The clock is read once for each tweet without a creation time, in the
    order of the tweets. *)
Lemma normalizes_all_ticks (users : gmap scalar obj) (tweets : list obj)
    (w : world) (rs : list NormalizedRecord) (w' : world) :
  normalizes_all py_str users tweets w rs w' →
  ticks w' = (ticks w + clock_readings tweets)%nat
  ∧ ∀ i tweet r, tweets !! i = Some tweet → rs !! i = Some r →
      lacks_creation_time tweet = true →
      r_timestamp r
      = strftime (clock w (ticks w + clock_readings (take i tweets))) timestamp_format.
Proof.
  induction 1 as [w|tweet tweets w r w1 rs w' Hstep Hrest [IHticks IHstamp]].
  - split; [unfold clock_readings; simpl; lia | done].
  - destruct (normalizes_ticks _ _ _ _ _ Hstep) as [Hticks Hstamp].
    pose proof (normalizes_frame py_str _ _ _ _ _ Hstep) as [(_ & Hclock & _) _].
    split.
    + rewrite clock_readings_cons. lia.
    + intros [|i] t r' Ht Hr Hlacks; simpl in Ht, Hr.
      * simplify_eq. rewrite Hstamp by done.
        unfold clock_readings. simpl. by rewrite Nat.add_0_r.
      * rewrite (IHstamp i t r' Ht Hr Hlacks), Hclock.
        cbn [take]. rewrite clock_readings_cons, Hticks.
        by rewrite Nat.add_assoc.
Qed.

(** A fetch over a well-formed response runs the loop to its end. *)
Lemma well_formed_fetch (self : TwitterStream) (count : Z) (w : world)
    (resp : response) (tweets : list obj) :
  search w (calls w) (client self) (request_of self count) = inr resp →
  data resp = Some tweets →
  tweets ≠ [] →
  forallb well_formed_tweet tweets = true →
  forallb well_formed_user (side_table resp) = true →
  ∃ users recs w1,
    users_of resp = inr users
    ∧ normalizes_all py_str users tweets (called w) recs w1
    ∧ get_recent_tweets py_str self count w
      = (inr recs, add_log (mk_log INFO ("Fetched " +:+ pretty (length recs)
                              +:+ " tweets with hashtag " +:+ hashtag self)) w1).
Proof.
  intros Hsearch Hdata Hne Htweets Husers.
  destruct (users_of_total resp Husers) as (users & Hof & Hwf).
  destruct (well_formed_normalizes_all py_str users tweets (called w) Htweets Hwf)
    as (recs & w1 & Hall).
  exists users, recs, w1. split; [done |]. split; [done |].
  assert (Hloop : process_tweets py_str users tweets [] (called w) = (inr recs, w1))
    by (apply process_tweets_normalizes_all; by exists recs).
  rewrite get_recent_tweets_run, fetch_run, Hsearch, Hdata, Hof.
  cbn [iter_data]. rewrite Hloop. by destruct tweets.
Qed.

End RecordFacts.

(** ** One record per post *)

(** The table built from the side-table gives a post the last author with
    its author id. *)
Lemma users_by_id_author_in (l : list obj) (acc m : gmap scalar obj) (key : scalar) :
  users_by_id l acc = inr m →
  m !! key = match author_in l key with
             | Some u => Some u
             | None => acc !! key
             end.
Proof.
  revert acc. induction l as [|user rest IH]; intros acc.
  - by intros [= <-].
  - change (users_by_id (user :: rest) acc)
      with (id <~ getattr user "id" ;; key <~ hash_key id ;;
            users_by_id rest (<[key := user]> acc)).
    unfold rbind.
    destruct (getattr user "id") as [e|[k|d]] eqn:Hid; [done | | done].
    unfold hash_key. intros Hrest. rewrite (IH _ Hrest).
    cbn [author_in]. destruct (author_in rest key); [done |].
    apply getattr_inr in Hid. unfold has_id. rewrite Hid.
    destruct (decide (k = key)) as [->|Hne].
    + by rewrite bool_decide_eq_true_2, lookup_insert_eq.
    + by rewrite bool_decide_eq_false_2, lookup_insert_ne.
Qed.

Lemma users_of_author_in (r : response) (users : gmap scalar obj) (key : scalar) :
  users_of r = inr users → users !! key = author_in (side_table r) key.
Proof.
  unfold users_of, side_table.
  destruct (includes r !! "users") as [l|]; simpl.
  - intros H. rewrite (users_by_id_author_in l ∅ users key H).
    destruct (author_in l key); [done | apply lookup_empty].
  - intros [= <-]. apply lookup_empty.
Qed.

Lemma users_by_id_returns (l : list obj) (acc : gmap scalar obj) :
  forallb (λ u, has_hashable u "id") l = true → ∃ m, users_by_id l acc = inr m.
Proof.
  revert acc. induction l as [|user rest IH]; intros acc Hids.
  - by exists acc.
  - cbn [forallb] in Hids. apply andb_prop in Hids as [Hid Hrest].
    apply has_hashable_getattr in Hid as [k Hk].
    change (users_by_id (user :: rest) acc)
      with (id <~ getattr user "id" ;; key <~ hash_key id ;;
            users_by_id rest (<[key := user]> acc)).
    rewrite Hk. unfold rbind, hash_key. by apply IH.
Qed.

Lemma users_of_returns (r : response) :
  forallb (λ u, has_hashable u "id") (side_table r) = true →
  ∃ users, users_of r = inr users.
Proof.
  unfold users_of, side_table.
  destruct (includes r !! "users") as [l|]; simpl; [|by exists ∅].
  apply users_by_id_returns.
Qed.

Lemma well_formed_not_lacking (tweet : obj) :
  well_formed_tweet tweet = true → lacks_required tweet = false.
Proof.
  unfold well_formed_tweet, lacks_required, has_hashable, datetime_or_falsy, hasattr.
  intros H. repeat (apply andb_prop in H as [H ?]).
  destruct (attrs tweet !! "author_id"); [|done].
  destruct (attrs tweet !! "created_at"); [|done].
  destruct (attrs tweet !! "id"); [|done].
  destruct (attrs tweet !! "text"); [|done].
  by rewrite !bool_decide_eq_true_2 by eauto.
Qed.

Section OneRecordPerPost.

Variable py_str : field → string.

Lemma presentable_author (user : option obj) :
  (∀ u, user = Some u → presentable u = true) →
  (∃ name, username_of py_str user = inr name)
  ∧ ∃ n, user_followers_of user = inr n.
Proof.
  destruct user as [u|]; intros Hp; [|by split; eexists].
  specialize (Hp u eq_refl). unfold presentable in Hp.
  apply andb_prop in Hp as [[h Hh]%hasattr_getattr Hpm]. split.
  - unfold username_of, rbind. rewrite Hh. by eexists.
  - unfold user_followers_of, getattr_default, dict_get.
    unfold mapping_or_absent in Hpm.
    destruct (attrs u !! "public_metrics") as [[s|d]|]; try done; by eexists.
Qed.

Lemma presentable_normalizes (users : gmap scalar obj) (side : list obj)
    (tweet : obj) (w : world) :
  (∀ key, users !! key = author_in side key) →
  well_formed_tweet tweet = true →
  author_presentable side tweet = true →
  ∃ r w', normalizes py_str users tweet w r w'.
Proof.
  intros Husers Hwf Hauthor. unfold well_formed_tweet in Hwf.
  apply andb_prop in Hwf as [Hwf Hpm]. apply andb_prop in Hwf as [Hwf Htext].
  apply andb_prop in Hwf as [Hwf Hid]. apply andb_prop in Hwf as [Hkey Hcreated].
  apply has_hashable_getattr in Hkey as [key Hkey].
  apply hasattr_getattr in Hid as [id Hid].
  apply hasattr_getattr in Htext as [text Htext].
  destruct (presentable_author (users !! key)) as [[name Hname] [followers Hf]].
  { intros u Hu. unfold author_presentable in Hauthor.
    apply getattr_inr in Hkey. rewrite Hkey in Hauthor.
    rewrite <- Husers, Hu in Hauthor. exact Hauthor. }
  destruct (timestamp_of_total tweet w Hcreated) as (s & w' & Hs).
  destruct (metric_of_total tweet "retweet_count" Hpm) as [rc Hrc].
  destruct (metric_of_total tweet "like_count" Hpm) as [lc Hlc].
  exists (mk_record id name text s followers rc lc), w', (users !! key).
  cbn [r_id r_username r_text r_timestamp r_user_followers r_retweet_count
       r_like_count].
  repeat split; try done. apply author_of_inv. by exists key.
Qed.

Lemma presentable_normalizes_all (users : gmap scalar obj) (side : list obj)
    (tweets : list obj) (w : world) :
  (∀ key, users !! key = author_in side key) →
  forallb well_formed_tweet tweets = true →
  forallb (author_presentable side) tweets = true →
  ∃ rs w', normalizes_all py_str users tweets w rs w'.
Proof.
  intros Husers Hwf Hauthors. revert w.
  induction tweets as [|tweet tweets IH]; intros w.
  - exists [], w. constructor.
  - cbn [forallb] in Hwf, Hauthors.
    apply andb_prop in Hwf as [Htweet Hrest].
    apply andb_prop in Hauthors as [Hauthor Hauthors].
    destruct (presentable_normalizes users side tweet w Husers Htweet Hauthor)
      as (r & w1 & Hr).
    destruct (IH Hrest Hauthors w1) as (rs & w' & Hrs).
    exists (r :: rs), w'. by econstructor.
Qed.

(** A batch with a post that lacks a required attribute is lost. *)
Lemma lacking_post_loses_batch (self : TwitterStream) (count : Z) (w : world)
    (resp : response) (tweets : list obj) :
  search w (calls w) (client self) (request_of self count) = inr resp →
  data resp = Some tweets →
  existsb lacks_required tweets = true →
  ∃ e w1,
    fetch py_str self count w = (inl e, w1)
    ∧ is_Exception e = true
    ∧ get_recent_tweets py_str self count w
      = (inr [], add_log (mk_log ERROR ("Error fetching tweets: " +:+ exn_str e)) w1).
Proof.
  intros Hsearch Hdata Hlacks.
  assert (Hne : tweets ≠ []) by (by intros ->).
  destruct (fetch py_str self count w) as [[e|recs] w1] eqn:Hfetch.
  - assert (He : is_Exception e = true).
    { apply fetch_raises in Hfetch as [[He _]|[_ He]]; [congruence | done]. }
    exists e, w1. split; [done |]. split; [done |].
    by rewrite get_recent_tweets_run, Hfetch, He.
  - exfalso.
    assert (Hrun : get_recent_tweets py_str self count w = (inr recs, w1))
      by (by rewrite get_recent_tweets_run, Hfetch).
    destruct recs as [|r recs].
    + destruct (fetch_empty py_str self count w) as (resp' & Hsearch' & Hnone);
        [by rewrite Hfetch |].
      rewrite Hsearch in Hsearch'. injection Hsearch' as <-.
      rewrite Hdata in Hnone. by destruct Hnone as [?|[= ->]].
    + destruct (get_recent_tweets_records py_str self count w resp (r :: recs) w1
                  Hsearch Hrun ltac:(done))
        as (users & tweets' & w2 & Hdata' & _ & Hall & _).
      rewrite Hdata in Hdata'. injection Hdata' as <-.
      apply normalizes_all_well_formed in Hall.
      apply existsb_exists in Hlacks as (tweet & Hin & Hlack).
      rewrite forallb_forall in Hall.
      by rewrite (well_formed_not_lacking tweet (Hall tweet Hin)) in Hlack.
Qed.

End OneRecordPerPost.

(** C2, as the code has it.  On a response whose post list is not empty:
    when the posts are well formed, the authors of the side-table have
    hashable ids and the author the side-table gives to a post, if any, is
    presentable, nothing is raised and [get_recent_tweets] returns exactly
    one record per post; neither an author missing from the side-table, nor
    a missing side-table, nor a missing [public_metrics] attribute stand in
    the way of that, and the record then carries "Unknown User" and the
    count 0.  When a post lacks one of [id], [text], [author_id] and
    [created_at], an [Exception] is raised and absorbed, and the whole batch
    is returned as the empty list. *)
Theorem one_record_per_well_formed_post (py_str : field → string)
    (self : TwitterStream) (count : Z) (w : world) (resp : response)
    (tweets : list obj) :
  search w (calls w) (client self) (request_of self count) = inr resp →
  data resp = Some tweets →
  tweets ≠ [] →
  (forallb well_formed_tweet tweets = true →
   forallb (λ u, has_hashable u "id") (side_table resp) = true →
   forallb (author_presentable (side_table resp)) tweets = true →
   ∃ recs w',
     fetch py_str self count w = (inr recs, w')
     ∧ get_recent_tweets py_str self count w = (inr recs, w')
     ∧ length recs = length tweets
     ∧ ∀ i tweet r, tweets !! i = Some tweet → recs !! i = Some r →
         ∃ author_id,
           getattr tweet "author_id" = inr (FScalar author_id)
           ∧ ((∀ u, u ∈ side_table resp → getattr u "id" ≠ inr (FScalar author_id)) →
                r_username r = "Unknown User" ∧ r_user_followers r = SInt 0)
           ∧ (includes resp !! "users" = None →
                r_username r = "Unknown User" ∧ r_user_followers r = SInt 0)
           ∧ (hasattr tweet "public_metrics" = false →
                r_retweet_count r = SInt 0 ∧ r_like_count r = SInt 0))
  ∧ (existsb lacks_required tweets = true →
     ∃ e w1,
       fetch py_str self count w = (inl e, w1)
       ∧ is_Exception e = true
       ∧ get_recent_tweets py_str self count w
         = (inr [], add_log (mk_log ERROR ("Error fetching tweets: "
                                           +:+ exn_str e)) w1)).
Proof.
  intros Hsearch Hdata Hne.
  split; [|by apply lacking_post_loses_batch with resp].
  intros Htweets Hids Hauthors.
  destruct (users_of_returns resp Hids) as [users Hof].
  destruct (presentable_normalizes_all py_str users (side_table resp) tweets
              (called w) (λ key, users_of_author_in resp users key Hof)
              Htweets Hauthors) as (recs & w1 & Hall).
  assert (Hloop : process_tweets py_str users tweets [] (called w) = (inr recs, w1))
    by (apply process_tweets_normalizes_all; by exists recs).
  assert (Hfetch : fetch py_str self count w
                   = (inr recs, add_log (mk_log INFO ("Fetched " +:+ pretty (length recs)
                        +:+ " tweets with hashtag " +:+ hashtag self)) w1)).
  { rewrite fetch_run, Hsearch, Hdata, Hof. cbn [iter_data].
    rewrite Hloop. by destruct tweets. }
  eexists recs, _. split; [exact Hfetch |].
  split; [by rewrite get_recent_tweets_run, Hfetch |].
  split; [by eapply normalizes_all_length |].
  intros i tweet r Htweet Hrec.
  destruct (normalizes_all_lookup py_str users tweets (called w) recs w1 i tweet r
              Hall Htweet Hrec) as (wi & wi' & Hn & _).
  destruct (normalizes_author py_str resp users tweet wi r wi' Hof Hn)
    as (key & Hkey & Hnone & _).
  exists key. split; [done |]. split; [done |]. split.
  - intros Hno. apply Hnone. unfold side_table. rewrite Hno.
    intros u Hu. by apply elem_of_nil in Hu.
  - by apply (normalizes_metrics py_str users tweet wi r wi').
Qed.

(** C2, as stated, fails: it is not the case that every response with a
    non-empty post list yields one record per post.  A response whose one
    post has no [text] attribute makes the loop raise [AttributeError], and
    [get_recent_tweets] returns the empty list. *)
Lemma textless_post_yields_no_record :
  ¬ (∀ (py_str : field → string) (self : TwitterStream) (count : Z) (w : world)
       (resp : response) (tweets : list obj),
       search w (calls w) (client self) (request_of self count) = inr resp →
       data resp = Some tweets →
       tweets ≠ [] →
       ∃ recs w', get_recent_tweets py_str self count w = (inr recs, w')
                  ∧ length recs = length tweets).
Proof.
  intros Hclaim.
  destruct (Hclaim plain_str sample_stream 10%Z textless_world textless_response
              [textless_tweet] eq_refl eq_refl ltac:(done))
    as (recs & w' & Hrun & Hlen).
  assert (Hnone : (get_recent_tweets plain_str sample_stream 10 textless_world).1
                  = inr []) by (vm_compute; reflexivity).
  rewrite Hrun in Hnone. simpl in Hnone. injection Hnone as ->. done.
Qed.

(** X9. A fetch never returns part of a batch: the list it returns is
    empty or holds exactly one record per post of the response, and in the
    second case every post was well formed and every author of the
    side-table had a hashable id. *)
Theorem no_partial_batch (py_str : field → string) (self : TwitterStream)
    (count : Z) (w : world) (resp : response) (tweets : list obj)
    (recs : list NormalizedRecord) (w' : world) :
  search w (calls w) (client self) (request_of self count) = inr resp →
  data resp = Some tweets →
  get_recent_tweets py_str self count w = (inr recs, w') →
  recs = []
  ∨ (length recs = length tweets
     ∧ forallb well_formed_tweet tweets = true
     ∧ forallb (λ u, has_hashable u "id") (side_table resp) = true).
Proof.
  intros Hsearch Hdata Hrun.
  destruct recs as [|r recs]; [by left | right].
  destruct (get_recent_tweets_records py_str self count w resp (r :: recs) w'
              Hsearch Hrun ltac:(done))
    as (users & tweets' & w1 & Hdata' & Husers & Hall & _).
  rewrite Hdata in Hdata'. injection Hdata' as <-.
  split; [by eapply normalizes_all_length |].
  split; [by eapply normalizes_all_well_formed | by eapply users_of_hashable].
Qed.

(** X10. The records come in the order of the posts, and each carries the
    [id] and the [text] of its post as they are: nothing is reordered,
    dropped, merged or rewritten. *)
Theorem records_keep_id_and_text (py_str : field → string) (self : TwitterStream)
    (count : Z) (w : world) (resp : response) (tweets : list obj)
    (recs : list NormalizedRecord) (w' : world) :
  search w (calls w) (client self) (request_of self count) = inr resp →
  data resp = Some tweets →
  get_recent_tweets py_str self count w = (inr recs, w') →
  recs ≠ [] →
  Forall2 (λ tweet r, getattr tweet "id" = inr (r_id r)
                      ∧ getattr tweet "text" = inr (r_text r)) tweets recs.
Proof.
  intros Hsearch Hdata Hrun Hne.
  destruct (get_recent_tweets_records py_str self count w resp recs w'
              Hsearch Hrun Hne)
    as (users & tweets' & w1 & Hdata' & _ & Hall & _).
  rewrite Hdata in Hdata'. injection Hdata' as <-.
  by eapply normalizes_all_id_text.
Qed.

(** X11. When the side-table holds several authors with the id of a post,
    the record is built from the last of them: its [username] is "@"
    followed by that author's username, and its [user_followers] is the
    [followers_count] of that author's [public_metrics], or 0 when the
    author has no [public_metrics] or the mapping has no such key. *)
Theorem last_author_wins (py_str : field → string) (self : TwitterStream)
    (count : Z) (w : world) (resp : response) (tweets : list obj)
    (recs : list NormalizedRecord) (w' : world)
    (i : nat) (tweet : obj) (r : NormalizedRecord)
    (earlier later : list obj) (author : obj) (author_id : scalar) :
  search w (calls w) (client self) (request_of self count) = inr resp →
  data resp = Some tweets →
  get_recent_tweets py_str self count w = (inr recs, w') →
  tweets !! i = Some tweet →
  recs !! i = Some r →
  getattr tweet "author_id" = inr (FScalar author_id) →
  includes resp !! "users" = Some (earlier ++ author :: later)%list →
  getattr author "id" = inr (FScalar author_id) →
  (∀ u, u ∈ later → getattr u "id" ≠ inr (FScalar author_id)) →
  ∃ handle d,
    getattr author "username" = inr handle
    ∧ r_username r = "@" +:+ format_value py_str handle
    ∧ getattr_default author "public_metrics" (FDict ∅) = FDict d
    ∧ r_user_followers r = default (SInt 0) (d !! "followers_count").
Proof.
  intros Hsearch Hdata Hrun Htweet Hrec Hauthor Hincl Hid Hlater.
  destruct (fetched_record py_str self count w resp tweets recs w' i tweet r
              Hsearch Hdata Hrun Htweet Hrec)
    as (users & wi & wi' & Husers & Hn & _).
  assert (Hlast : users !! author_id = Some author).
  { unfold users_of in Husers. rewrite Hincl in Husers.
    by eapply users_by_id_last. }
  destruct Hn as (user & Hof & Hname & _ & _ & _ & Hfollowers & _).
  apply author_of_inv in Hof as (key & Hkey & ->).
  rewrite Hauthor in Hkey. injection Hkey as <-. rewrite Hlast in *.
  unfold username_of, rbind in Hname.
  destruct (getattr author "username") as [e|handle]; [done |].
  injection Hname as Hname.
  unfold user_followers_of, dict_get in Hfollowers.
  destruct (getattr_default author "public_metrics" (FDict ∅)) as [s|d]; [done |].
  injection Hfollowers as Hfollowers. by exists handle, d.
Qed.

(** X12. A fetch that returns records has read the clock exactly once for
    each post whose [created_at] is falsy and never for another post; the
    readings are taken in the order of the posts, so that the n-th such
    post carries the n-th reading. *)
Theorem clock_read_once_per_missing_time (py_str : field → string)
    (self : TwitterStream) (count : Z) (w : world) (resp : response)
    (tweets : list obj) (recs : list NormalizedRecord) (w' : world) :
  search w (calls w) (client self) (request_of self count) = inr resp →
  data resp = Some tweets →
  get_recent_tweets py_str self count w = (inr recs, w') →
  recs ≠ [] →
  ticks w' = (ticks w + clock_readings tweets)%nat
  ∧ ∀ i tweet r, tweets !! i = Some tweet → recs !! i = Some r →
      lacks_creation_time tweet = true →
      r_timestamp r
      = strftime (clock w (ticks w + clock_readings (take i tweets))) timestamp_format.
Proof.
  intros Hsearch Hdata Hrun Hne.
  destruct (get_recent_tweets_records py_str self count w resp recs w'
              Hsearch Hrun Hne)
    as (users & tweets' & w1 & Hdata' & _ & Hall & ->).
  rewrite Hdata in Hdata'. injection Hdata' as <-.
  by apply (normalizes_all_ticks py_str) in Hall.
Qed.

(** X13. On a well-formed response with posts, [get_stream_sample] returns
    the record of the first post of the response: the record with that
    post's [id] and [text]. *)
Theorem sample_is_first_post (py_str : field → string) (self : TwitterStream)
    (w : world) (resp : response) (first : obj) (rest : list obj) :
  search w (calls w) (client self) (request_of self 5) = inr resp →
  data resp = Some (first :: rest) →
  forallb well_formed_tweet (first :: rest) = true →
  forallb well_formed_user (side_table resp) = true →
  ∃ r w',
    get_stream_sample py_str self w = (inr (Some r), w')
    ∧ getattr first "id" = inr (r_id r)
    ∧ getattr first "text" = inr (r_text r).
Proof.
  intros Hsearch Hdata Htweets Husers.
  destruct (well_formed_fetch py_str self 5 w resp (first :: rest)
              Hsearch Hdata ltac:(done) Htweets Husers)
    as (users & recs & w1 & _ & Hall & Hrun).
  pose proof (normalizes_all_id_text py_str _ _ _ _ _ Hall) as Hids.
  destruct recs as [|r recs]; [by apply Forall2_length in Hids |].
  inversion Hids as [|? ? ? ? [Hid Htext] _]; subst.
  eexists r, _. split; [|done].
  unfold get_stream_sample, bind. by rewrite Hrun.
Qed.

(** ** The timestamp format keeps the seconds *)

Lemma digit_of_inj (a b : Z) : digit_of a = digit_of b → (a mod 10 = b mod 10)%Z.
Proof.
  unfold digit_of. intros H.
  pose proof (Z.mod_pos_bound a 10 ltac:(lia)).
  pose proof (Z.mod_pos_bound b 10 ltac:(lia)).
  apply (f_equal nat_of_ascii) in H.
  rewrite !nat_ascii_embedding in H by lia. lia.
Qed.

(** Times of four-digit years with the same nineteen characters have the
    same six components. *)
Lemma seconds_text_inj (d1 d2 : datetime) :
  valid_datetime d1 → four_digit_year d1 →
  valid_datetime d2 → four_digit_year d2 →
  seconds_text d1 = seconds_text d2 →
  year d1 = year d2 ∧ month d1 = month d2 ∧ day d1 = day d2
  ∧ hour d1 = hour d2 ∧ minute d1 = minute d2 ∧ second d1 = second d2.
Proof.
  unfold valid_datetime, four_digit_year, seconds_text.
  intros (Hy1 & Hmo1 & Hd1 & Hh1 & Hmi1 & Hs1) Hf1
         (Hy2 & Hmo2 & Hd2 & Hh2 & Hmi2 & Hs2) Hf2 H.
  cbv [string_of_list_ascii] in H.
  injection H as Y3 Y2 Y1 Y0 O1 O0 D1 D0 H1 H0 M1 M0 S1 S0.
  apply digit_of_inj in Y3, Y2, Y1, Y0, O1, O0, D1, D0, H1, H0, M1, M0, S1, S0.
  repeat split; Z.div_mod_to_equations; lia.
Qed.

(** X14. The timestamp keeps the creation time down to the second and
    nothing below: two records of a fetch whose posts carry valid creation
    times of four-digit years have the same [timestamp] only if the two
    creation times have the same year, month, day, hour, minute and
    second. *)
Theorem equal_timestamps_equal_times (py_str : field → string)
    (self : TwitterStream) (count : Z) (w : world) (resp : response)
    (tweets : list obj) (recs : list NormalizedRecord) (w' : world)
    (i j : nat) (ti tj : obj) (ri rj : NormalizedRecord) (di dj : datetime) :
  search w (calls w) (client self) (request_of self count) = inr resp →
  data resp = Some tweets →
  get_recent_tweets py_str self count w = (inr recs, w') →
  tweets !! i = Some ti → recs !! i = Some ri →
  tweets !! j = Some tj → recs !! j = Some rj →
  getattr ti "created_at" = inr (FScalar (STime di)) →
  valid_datetime di → four_digit_year di →
  getattr tj "created_at" = inr (FScalar (STime dj)) →
  valid_datetime dj → four_digit_year dj →
  r_timestamp ri = r_timestamp rj →
  year di = year dj ∧ month di = month dj ∧ day di = day dj
  ∧ hour di = hour dj ∧ minute di = minute dj ∧ second di = second dj.
Proof.
  intros Hsearch Hdata Hrun Hti Hri Htj Hrj Hdi Hvi Hfi Hdj Hvj Hfj Heq.
  destruct (fetched_record py_str self count w resp tweets recs w' i ti ri
              Hsearch Hdata Hrun Hti Hri)
    as (users & wi & wi' & _ & (ui & _ & _ & Hsi & _) & _).
  destruct (fetched_record py_str self count w resp tweets recs w' j tj rj
              Hsearch Hdata Hrun Htj Hrj)
    as (users' & wj & wj' & _ & (uj & _ & _ & Hsj & _) & _).
  apply timestamp_of_inv in Hsi as (ci & Hci & Hsi).
  apply timestamp_of_inv in Hsj as (cj & Hcj & Hsj).
  rewrite Hdi in Hci. rewrite Hdj in Hcj.
  injection Hci as <-. injection Hcj as <-.
  cbn [truthy] in Hsi, Hsj.
  destruct Hsi as (d1 & [= <-] & Hi & _). destruct Hsj as (d2 & [= <-] & Hj & _).
  apply seconds_text_inj; try done.
  rewrite <- !strftime_seconds_text by done. congruence.
Qed.

(** ** Sampling, and what a fetch looks at *)

(** X15. [get_stream_sample] returns [None] both when the search call
    raises an [Exception] and when the response has no posts; the caller
    cannot tell the two apart but for the level of the record added to the
    log.  An exception of the search call that [except Exception] does not
    catch leaves [get_stream_sample] as it is, and nothing is logged. *)
Theorem sample_is_none_without_posts (py_str : field → string)
    (self : TwitterStream) (w : world) :
  (∀ e, search w (calls w) (client self) (request_of self 5) = inl e →
     is_Exception e = true →
     get_stream_sample py_str self w
     = (inr None, add_log (mk_log ERROR ("Error fetching tweets: " +:+ exn_str e))
                          (called w)))
  ∧ (∀ e, search w (calls w) (client self) (request_of self 5) = inl e →
       is_Exception e = false →
       get_stream_sample py_str self w = (inl e, called w))
  ∧ (∀ resp, search w (calls w) (client self) (request_of self 5) = inr resp →
       data resp = None ∨ data resp = Some [] →
       get_stream_sample py_str self w
       = (inr None, add_log (mk_log WARNING ("No tweets found matching query: "
                                             +:+ query self)) (called w))).
Proof.
  unfold get_stream_sample, bind.
  rewrite get_recent_tweets_run, fetch_run. split; [|split].
  - intros e -> ->. reflexivity.
  - intros e -> ->. reflexivity.
  - intros resp -> Hdata.
    assert (truthy_data (data resp) = false) as ->
      by (by destruct Hdata as [-> | ->]).
    reflexivity.
Qed.

Section OneAnswer.

Variable py_str : field → string.

Lemma timestamp_of_same_clock (tweet : obj) (w1 w2 : world) :
  clock w1 = clock w2 → ticks w1 = ticks w2 →
  (timestamp_of tweet w1).1 = (timestamp_of tweet w2).1
  ∧ clock (timestamp_of tweet w1).2 = clock (timestamp_of tweet w2).2
  ∧ ticks (timestamp_of tweet w1).2 = ticks (timestamp_of tweet w2).2.
Proof.
  intros Hclock Hticks.
  unfold timestamp_of, bind, lift, ret, datetime_now.
  destruct (getattr tweet "created_at") as [e|c]; cbv beta iota; [done |].
  destruct (truthy c); cbv beta iota.
  - by destruct (call_strftime c timestamp_format).
  - cbn [fst snd clock ticks]. by rewrite Hclock, Hticks.
Qed.

Lemma process_tweet_same_clock (users : gmap scalar obj) (tweet : obj)
    (w1 w2 : world) :
  clock w1 = clock w2 → ticks w1 = ticks w2 →
  (process_tweet py_str users tweet w1).1 = (process_tweet py_str users tweet w2).1
  ∧ clock (process_tweet py_str users tweet w1).2
    = clock (process_tweet py_str users tweet w2).2
  ∧ ticks (process_tweet py_str users tweet w1).2
    = ticks (process_tweet py_str users tweet w2).2.
Proof.
  intros Hclock Hticks.
  pose proof (timestamp_of_same_clock tweet w1 w2 Hclock Hticks) as Hstamp.
  unfold process_tweet, bind, lift, ret.
  destruct (author_of users tweet) as [?|user]; cbv beta iota; [done |].
  destruct (username_of py_str user) as [?|username]; cbv beta iota; [done |].
  destruct (timestamp_of tweet w1) as [r1 v1], (timestamp_of tweet w2) as [r2 v2].
  cbn [fst snd] in Hstamp. destruct Hstamp as (-> & Hc & Ht).
  destruct r2 as [?|timestamp]; cbv beta iota; [done |].
  destruct (getattr tweet "id") as [?|id]; cbv beta iota; [done |].
  destruct (getattr tweet "text") as [?|text]; cbv beta iota; [done |].
  destruct (user_followers_of user) as [?|followers]; cbv beta iota; [done |].
  destruct (metric_of tweet "retweet_count") as [?|rc]; cbv beta iota; [done |].
  by destruct (metric_of tweet "like_count") as [?|lc].
Qed.

Lemma process_tweets_same_clock (users : gmap scalar obj) (tweets : list obj)
    (processed : list NormalizedRecord) (w1 w2 : world) :
  clock w1 = clock w2 → ticks w1 = ticks w2 →
  (process_tweets py_str users tweets processed w1).1
  = (process_tweets py_str users tweets processed w2).1.
Proof.
  revert processed w1 w2.
  induction tweets as [|tweet tweets IH]; intros processed w1 w2 Hclock Hticks;
    [done |].
  change (process_tweets py_str users (tweet :: tweets) processed w1)
    with (match process_tweet py_str users tweet w1 with
          | (inr r, v) => process_tweets py_str users tweets (processed ++ [r]) v
          | (inl e, v) => (inl e, v)
          end).
  change (process_tweets py_str users (tweet :: tweets) processed w2)
    with (match process_tweet py_str users tweet w2 with
          | (inr r, v) => process_tweets py_str users tweets (processed ++ [r]) v
          | (inl e, v) => (inl e, v)
          end).
  pose proof (process_tweet_same_clock users tweet w1 w2 Hclock Hticks) as Hstep.
  destruct (process_tweet py_str users tweet w1) as [r1 v1],
    (process_tweet py_str users tweet w2) as [r2 v2].
  cbn [fst snd] in Hstep. destruct Hstep as (-> & Hc & Ht).
  destruct r2 as [e|r]; [done |]. by apply IH.
Qed.

End OneAnswer.

(** X16. The list a fetch returns is decided by the answer to the one
    request it sends (the stored query, [max_results] equal to [count], the
    three tweet fields, the three user fields, the author expansion) and by
    the clock: two worlds that agree on this answer and on the clock give
    the same list, whatever else differs between them. *)
Theorem fetch_depends_on_one_answer (py_str : field → string)
    (self : TwitterStream) (count : Z) (w1 w2 : world) :
  clock w1 = clock w2 →
  ticks w1 = ticks w2 →
  search w1 (calls w1) (client self)
         (mk_request (query self) count ["created_at"; "public_metrics"; "text"]
                     ["username"; "name"; "profile_image_url"] ["author_id"])
  = search w2 (calls w2) (client self)
           (mk_request (query self) count ["created_at"; "public_metrics"; "text"]
                       ["username"; "name"; "profile_image_url"] ["author_id"]) →
  (get_recent_tweets py_str self count w1).1
  = (get_recent_tweets py_str self count w2).1.
Proof.
  intros Hclock Hticks Hanswer.
  rewrite !get_recent_tweets_run, !fetch_run. unfold request_of.
  rewrite Hanswer.
  destruct (search w2 (calls w2) (client self) _) as [e|resp];
    [by destruct (is_Exception e) |].
  destruct (truthy_data (data resp)); [|done].
  destruct (users_of resp) as [e|users]; [by destruct (is_Exception e) |].
  destruct (iter_data (data resp)) as [e|tweets]; [by destruct (is_Exception e) |].
  pose proof (process_tweets_same_clock py_str users tweets [] (called w1) (called w2)
                Hclock Hticks) as Hloop.
  destruct (process_tweets py_str users tweets [] (called w1)) as [[e1|l1] v1],
    (process_tweets py_str users tweets [] (called w2)) as [[e2|l2] v2];
    cbn [fst] in Hloop; simplify_eq; [|done].
  by destruct (is_Exception e2).
Qed.

(** X17. Setting a variable of the environment to a non-empty value never
    turns credentials that pass validation into credentials that fail
    it. *)
Theorem more_credentials_still_valid (name v : string) (w : world) :
  v ≠ "" →
  _validate_credentials (read_credentials w) = inr () →
  _validate_credentials (read_credentials (setenv name v w)) = inr ().
Proof.
  intros Hv. pose proof (is_set_Some v Hv) as Hset.
  rewrite !validate_credentials_cases.
  unfold credentials_complete, read_credentials, setenv.
  cbn [environ bearer_token api_key api_secret access_token access_token_secret].
  destruct (decide (name = "TWITTER_BEARER_TOKEN")) as [->|?];
    [rewrite lookup_insert_eq, Hset; done | rewrite (lookup_insert_ne _ name) by done].
  destruct (is_set (environ w !! "TWITTER_BEARER_TOKEN")); [done |]. cbn [orb].
  destruct (decide (name = "TWITTER_API_KEY")) as [->|?];
    [rewrite lookup_insert_eq, !lookup_insert_ne, Hset by done
    | rewrite (lookup_insert_ne _ name "TWITTER_API_KEY") by done].
  { by destruct (is_set (environ w !! "TWITTER_API_KEY")), (is_set (environ w !! "TWITTER_API_SECRET")),
      (is_set (environ w !! "TWITTER_ACCESS_TOKEN")),
      (is_set (environ w !! "TWITTER_ACCESS_TOKEN_SECRET")). }
  destruct (is_set (environ w !! "TWITTER_API_KEY")); [|done]. cbn [andb].
  destruct (decide (name = "TWITTER_API_SECRET")) as [->|?];
    [rewrite lookup_insert_eq, !lookup_insert_ne, Hset by done
    | rewrite (lookup_insert_ne _ name "TWITTER_API_SECRET") by done].
  { by destruct (is_set (environ w !! "TWITTER_API_SECRET")),
      (is_set (environ w !! "TWITTER_ACCESS_TOKEN")),
      (is_set (environ w !! "TWITTER_ACCESS_TOKEN_SECRET")). }
  destruct (is_set (environ w !! "TWITTER_API_SECRET")); [|done]. cbn [andb].
  destruct (decide (name = "TWITTER_ACCESS_TOKEN")) as [->|?];
    [rewrite lookup_insert_eq, !lookup_insert_ne, Hset by done
    | rewrite (lookup_insert_ne _ name "TWITTER_ACCESS_TOKEN") by done].
  { by destruct (is_set (environ w !! "TWITTER_ACCESS_TOKEN")),
      (is_set (environ w !! "TWITTER_ACCESS_TOKEN_SECRET")). }
  destruct (is_set (environ w !! "TWITTER_ACCESS_TOKEN")); [|done]. cbn [andb].
  destruct (decide (name = "TWITTER_ACCESS_TOKEN_SECRET")) as [->|?];
    [rewrite lookup_insert_eq, Hset; done
    | rewrite (lookup_insert_ne _ name "TWITTER_ACCESS_TOKEN_SECRET") by done].
  done.
Qed.

(** * The further properties at concrete inputs *)

(** X1 at the sample world, whose environment holds a bearer token. *)
Lemma init_prefers_bearer_token_witness :
  __init__ default_hashtag sample_world
  = (inr (mk_TwitterStream (read_credentials sample_world)
            (mk_Client (Some "token") None None None None)
            default_hashtag (default_hashtag +:+ " -is:retweet")),
     add_log (mk_log INFO ("TwitterStream initialized for hashtag: " +:+ default_hashtag))
       (add_log (mk_log INFO "Twitter API v2 client initialized with Bearer Token")
                sample_world)).
Proof.
  apply (init_prefers_bearer_token default_hashtag "token" sample_world).
  - vm_compute. reflexivity.
  - discriminate.
  - reflexivity.
Defined.

(** X2 at a world with an empty bearer token and the four OAuth values. *)
Lemma init_falls_back_to_oauth_witness :
  __init__ default_hashtag oauth_world
  = (inr (mk_TwitterStream (read_credentials oauth_world)
            (mk_Client None (environ oauth_world !! "TWITTER_API_KEY")
                       (environ oauth_world !! "TWITTER_API_SECRET")
                       (environ oauth_world !! "TWITTER_ACCESS_TOKEN")
                       (environ oauth_world !! "TWITTER_ACCESS_TOKEN_SECRET"))
            default_hashtag (default_hashtag +:+ " -is:retweet")),
     add_log (mk_log INFO ("TwitterStream initialized for hashtag: " +:+ default_hashtag))
       (add_log (mk_log INFO "Twitter API v2 client initialized with OAuth 1.0a")
                oauth_world)).
Proof.
  apply (init_falls_back_to_oauth default_hashtag oauth_world);
    vm_compute; reflexivity.
Defined.

(** X3 at a world whose client constructor raises a [TypeError], which is
    logged, and at one whose constructor is interrupted, which is not. *)
Lemma init_reraises_client_error_witness :
  __init__ default_hashtag broken_client_world
  = (inl (TypeError "unexpected keyword argument"),
     add_log (mk_log ERROR ("Error initializing Twitter v2 client: "
                            +:+ exn_str (TypeError "unexpected keyword argument")))
             broken_client_world)
  ∧ __init__ default_hashtag interrupted_client_world
    = (inl KeyboardInterrupt, interrupted_client_world).
Proof.
  split.
  - apply (init_reraises_client_error default_hashtag broken_client_world);
      vm_compute; reflexivity.
  - apply (init_reraises_client_error default_hashtag interrupted_client_world);
      vm_compute; reflexivity.
Defined.

(** X5 for the variable HOME. *)
Lemma init_reads_five_variables_witness :
  (__init__ default_hashtag (setenv "HOME" "/root" sample_world)).1
  = (__init__ default_hashtag sample_world).1.
Proof.
  apply (init_reads_five_variables default_hashtag "HOME" "/root" sample_world).
  unfold credential_names. intros H.
  repeat (apply elem_of_cons in H as [H|H]; [discriminate |]).
  by apply elem_of_nil in H.
Defined.

(** X9 at the sample response. *)
Lemma no_partial_batch_witness :
  [orphan_record; bob_record] = []
  ∨ (length [orphan_record; bob_record] = length [orphan_tweet; bob_tweet]
     ∧ forallb well_formed_tweet [orphan_tweet; bob_tweet] = true
     ∧ forallb (λ u, has_hashable u "id") (side_table sample_response) = true).
Proof.
  apply (no_partial_batch plain_str sample_stream 10 sample_world sample_response
           [orphan_tweet; bob_tweet] [orphan_record; bob_record] sample_final_world).
  - vm_compute. reflexivity.
  - reflexivity.
  - vm_compute. reflexivity.
Defined.

(** X10 at the sample response. *)
Lemma records_keep_id_and_text_witness :
  Forall2 (λ tweet r, getattr tweet "id" = inr (r_id r)
                      ∧ getattr tweet "text" = inr (r_text r))
          [orphan_tweet; bob_tweet] [orphan_record; bob_record].
Proof.
  apply (records_keep_id_and_text plain_str sample_stream 10 sample_world
           sample_response [orphan_tweet; bob_tweet] [orphan_record; bob_record]
           sample_final_world).
  - vm_compute. reflexivity.
  - reflexivity.
  - vm_compute. reflexivity.
  - discriminate.
Defined.

(** X11 at a side-table with two authors of id 7. *)
Lemma last_author_wins_witness :
  ∃ handle d,
    getattr bob_renamed "username" = inr handle
    ∧ r_username twin_record = "@" +:+ format_value plain_str handle
    ∧ getattr_default bob_renamed "public_metrics" (FDict ∅) = FDict d
    ∧ r_user_followers twin_record = default (SInt 0) (d !! "followers_count").
Proof.
  apply (last_author_wins plain_str sample_stream 10 twin_world twin_response
           [bob_tweet] [twin_record] twin_final_world 0 bob_tweet twin_record
           [bob] [] bob_renamed (SInt 7)).
  - vm_compute. reflexivity.
  - reflexivity.
  - vm_compute. reflexivity.
  - reflexivity.
  - reflexivity.
  - vm_compute. reflexivity.
  - vm_compute. reflexivity.
  - vm_compute. reflexivity.
  - intros u Hu. by apply elem_of_nil in Hu.
Defined.

(** X12 at the sample response, whose first tweet has no creation time. *)
Lemma clock_read_once_per_missing_time_witness :
  ticks sample_final_world
  = (ticks sample_world + clock_readings [orphan_tweet; bob_tweet])%nat
  ∧ ∀ i tweet r,
      [orphan_tweet; bob_tweet] !! i = Some tweet →
      [orphan_record; bob_record] !! i = Some r →
      lacks_creation_time tweet = true →
      r_timestamp r
      = strftime (clock sample_world
                    (ticks sample_world
                     + clock_readings (take i [orphan_tweet; bob_tweet])))
                 timestamp_format.
Proof.
  apply (clock_read_once_per_missing_time plain_str sample_stream 10 sample_world
           sample_response [orphan_tweet; bob_tweet] [orphan_record; bob_record]
           sample_final_world).
  - vm_compute. reflexivity.
  - reflexivity.
  - vm_compute. reflexivity.
  - discriminate.
Defined.

(** X13 at the sample response. *)
Lemma sample_is_first_post_witness :
  ∃ r w',
    get_stream_sample plain_str sample_stream sample_world = (inr (Some r), w')
    ∧ getattr orphan_tweet "id" = inr (r_id r)
    ∧ getattr orphan_tweet "text" = inr (r_text r).
Proof.
  apply (sample_is_first_post plain_str sample_stream sample_world sample_response
           orphan_tweet [bob_tweet]).
  - vm_compute. reflexivity.
  - reflexivity.
  - vm_compute. reflexivity.
  - vm_compute. reflexivity.
Defined.

(** X14 at two tweets created in the same second. *)
Lemma equal_timestamps_equal_times_witness :
  year (mk_datetime 2024 3 9 7 5 0) = year (mk_datetime 2024 3 9 7 5 0)
  ∧ month (mk_datetime 2024 3 9 7 5 0) = month (mk_datetime 2024 3 9 7 5 0)
  ∧ day (mk_datetime 2024 3 9 7 5 0) = day (mk_datetime 2024 3 9 7 5 0)
  ∧ hour (mk_datetime 2024 3 9 7 5 0) = hour (mk_datetime 2024 3 9 7 5 0)
  ∧ minute (mk_datetime 2024 3 9 7 5 0) = minute (mk_datetime 2024 3 9 7 5 0)
  ∧ second (mk_datetime 2024 3 9 7 5 0) = second (mk_datetime 2024 3 9 7 5 0).
Proof.
  apply (equal_timestamps_equal_times plain_str sample_stream 10 echo_world
           echo_response [bob_tweet; echo_tweet] echo_records echo_final_world
           0 1 bob_tweet echo_tweet
           (mk_record (FScalar (SInt 2)) "Unknown User" (FScalar (SStr "world"))
                      "2024-03-09 07:05:00" (SInt 0) (SInt 0) (SInt 3))
           (mk_record (FScalar (SInt 5)) "Unknown User" (FScalar (SStr "again"))
                      "2024-03-09 07:05:00" (SInt 0) (SInt 0) (SInt 0))
           (mk_datetime 2024 3 9 7 5 0) (mk_datetime 2024 3 9 7 5 0)).
  - vm_compute. reflexivity.
  - reflexivity.
  - vm_compute. reflexivity.
  - reflexivity.
  - reflexivity.
  - reflexivity.
  - reflexivity.
  - vm_compute. reflexivity.
  - unfold valid_datetime. simpl. lia.
  - unfold four_digit_year. simpl. lia.
  - vm_compute. reflexivity.
  - unfold valid_datetime. simpl. lia.
  - unfold four_digit_year. simpl. lia.
  - reflexivity.
Defined.

(** X16 at the sample world and the same world with one more variable in
    its environment. *)
Lemma fetch_depends_on_one_answer_witness :
  (get_recent_tweets plain_str sample_stream 10 sample_world).1
  = (get_recent_tweets plain_str sample_stream 10
       (setenv "HOME" "/root" sample_world)).1.
Proof.
  apply (fetch_depends_on_one_answer plain_str sample_stream 10 sample_world
           (setenv "HOME" "/root" sample_world)); reflexivity.
Defined.

(** X17 at the sample world, adding an OAuth key to a bearer token. *)
Lemma more_credentials_still_valid_witness :
  _validate_credentials
    (read_credentials (setenv "TWITTER_API_KEY" "key" sample_world)) = inr ().
Proof.
  apply (more_credentials_still_valid "TWITTER_API_KEY" "key" sample_world).
  - discriminate.
  - vm_compute. reflexivity.
Defined.

(** C2 at the sample response, whose two posts are well formed, and at a
    response whose one post has no [text]. *)
Lemma one_record_per_well_formed_post_witness :
  (∃ recs w',
     get_recent_tweets plain_str sample_stream 10 sample_world = (inr recs, w')
     ∧ length recs = length [orphan_tweet; bob_tweet])
  ∧ (∃ e w1,
       fetch plain_str sample_stream 10 textless_world = (inl e, w1)
       ∧ is_Exception e = true
       ∧ get_recent_tweets plain_str sample_stream 10 textless_world
         = (inr [], add_log (mk_log ERROR ("Error fetching tweets: "
                                           +:+ exn_str e)) w1)).
Proof.
  split.
  - destruct (one_record_per_well_formed_post plain_str sample_stream 10
                sample_world sample_response [orphan_tweet; bob_tweet])
      as [Hrecords _].
    + vm_compute. reflexivity.
    + reflexivity.
    + discriminate.
    + destruct Hrecords as (recs & w' & _ & Hrun & Hlen & _).
      * vm_compute. reflexivity.
      * vm_compute. reflexivity.
      * vm_compute. reflexivity.
      * by exists recs, w'.
  - destruct (one_record_per_well_formed_post plain_str sample_stream 10
                textless_world textless_response [textless_tweet])
      as [_ Hlost].
    + vm_compute. reflexivity.
    + reflexivity.
    + discriminate.
    + apply Hlost. vm_compute. reflexivity.
Defined.
